(** * Token and rate-limit state manager of [backend_api.py]

    A shallow embedding of the refresh-token rotation, verification-token,
    revocation and rate-limiting code of [src/backend_api.py], together with
    the properties of these operations.

    The handlers of the source talk to three collaborators: a Redis client
    (the global [redis_client], which is [None] when no client could be
    built), a database connection and the [secrets] entropy source.  They
    are modelled as explicit components of a [world] that every handler
    transforms; a Python exception is an explicit [Raise] result, and the
    world reached when the exception is raised is kept, because the store
    commands issued before it are not undone.  The store of a world answers
    the commands sent to it; a client whose server cannot be reached is
    described apart, as a client object whose commands raise.

    Requests are handled one after the other, and all the commands of one
    handler are sent at the same instant of the [clock], which is the Unix
    time of the store's server in seconds; time passes between requests.
    Interleavings of concurrent requests are outside this model. *)

From Stdlib Require Import ZArith DecimalString DecimalZ DecimalPos.
From stdpp Require Import gmap strings list fin_maps.

Open Scope Z_scope.

(** ** Decimal strings

    With [decode_responses=True] every value read from the store is a
    string; the rate limiter converts it with [int(...)], and the store's
    INCR command parses and re-prints it.  A character of a string is a
    code point below 256. *)

Definition py_str (z : Z) : string := NilZero.string_of_int (Z.to_int z).

(** The white space that [int] skips at both ends of its argument: tab, line
    feed, vertical tab, form feed, carriage return and space, and the two
    white-space characters above 127, next line and no-break space. *)
Definition is_space (c : Ascii.ascii) : bool :=
  let n := Ascii.nat_of_ascii c in
  ((9 <=? n) && (n <=? 13) || (n =? 32) || (n =? 133) || (n =? 160))%nat.

Definition digit_value (c : Ascii.ascii) : option Z :=
  let n := Z.of_nat (Ascii.nat_of_ascii c) in
  if (48 <=? n) && (n <=? 57) then Some (n - 48) else None.

Fixpoint lstrip (s : string) : string :=
  match s with
  | String c s' => if is_space c then lstrip s' else s
  | EmptyString => EmptyString
  end.

Fixpoint rstrip (s : string) : string :=
  match s with
  | String c s' =>
      match rstrip s' with
      | EmptyString => if is_space c then EmptyString else String c EmptyString
      | t => String c t
      end
  | EmptyString => EmptyString
  end.

(** The number that the decimal digits [d] denote, read from the left onto
    [acc]. *)
Fixpoint uint_value (d : Decimal.uint) (acc : Z) : Z :=
  match d with
  | Decimal.Nil => acc
  | Decimal.D0 d => uint_value d (10 * acc + 0)
  | Decimal.D1 d => uint_value d (10 * acc + 1)
  | Decimal.D2 d => uint_value d (10 * acc + 2)
  | Decimal.D3 d => uint_value d (10 * acc + 3)
  | Decimal.D4 d => uint_value d (10 * acc + 4)
  | Decimal.D5 d => uint_value d (10 * acc + 5)
  | Decimal.D6 d => uint_value d (10 * acc + 6)
  | Decimal.D7 d => uint_value d (10 * acc + 7)
  | Decimal.D8 d => uint_value d (10 * acc + 8)
  | Decimal.D9 d => uint_value d (10 * acc + 9)
  end.

(** The digits of a number, read from the left onto [acc]: at least one
    digit, and single underscores allowed between two digits.  [after_digit]
    tells whether the character before [s] was a digit. *)
Fixpoint digits_value (acc : Z) (after_digit : bool) (s : string)
    : option Z :=
  match s with
  | EmptyString => if after_digit then Some acc else None
  | String c s' =>
      match digit_value c with
      | Some d => digits_value (10 * acc + d) true s'
      | None =>
          if after_digit && (Ascii.nat_of_ascii c =? 95)%nat
          then digits_value acc false s'
          else None
      end
  end.

(** [int(s)] for a string: white space around the number is skipped, the
    number is an optional sign, [+] or [-], followed by its digits; [None]
    stands for Python's [ValueError].  The bound that an interpreter may put
    on the number of digits is not applied. *)
Definition py_int (s : string) : option Z :=
  match rstrip (lstrip s) with
  | EmptyString => None
  | String c t =>
      if (Ascii.nat_of_ascii c =? 45)%nat then
        Z.opp <$> digits_value 0 false t
      else if (Ascii.nat_of_ascii c =? 43)%nat then digits_value 0 false t
      else digits_value 0 false (String c t)
  end.

(** ** Exceptions and results *)

Inductive exn :=
| HTTPException (status_code : Z) (detail : string)
| AttributeError      (* a method called on [redis_client = None] *)
| ResponseError       (* the store refuses a command *)
| ConnectionError     (* the store cannot be reached *)
| ValueError          (* [int] applied to a string that is not a number *)
| OperationalError.   (* the database refuses a statement or a commit *)

Inductive result (A : Type) :=
| Return (a : A)
| Raise (e : exn).
Arguments Return {A} a.
Arguments Raise {A} e.

(** The JSON bodies the handlers answer with: [{"message": ...}]. *)
Record JSON := { message : string }.

(** ** The key-value store

    The commands of the Redis server that the handlers use.  A record holds a
    string and, when it was given a time to live, the instant at which it
    stops being visible; a record that has expired is absent for every
    command. *)

Record entry := { value : string; expire_at : option Z }.

Record redis := { keyspace : gmap string entry }.

Module Redis.

Definition live (now : Z) (e : entry) : bool :=
  match expire_at e with
  | None => true
  | Some t => now <? t
  end.

(** The record under [k] as the store sees it at [now]: expired records
    are absent. *)
Definition lookup (now : Z) (r : redis) (k : string) : option entry :=
  match keyspace r !! k with
  | Some e => if live now e then Some e else None
  | None => None
  end.

Definition with_keyspace (m : gmap string entry) (r : redis) : redis :=
  {| keyspace := m |}.

(** The largest signed 64-bit integer; the server keeps its times, in
    milliseconds, in such integers. *)
Definition LLONG_MAX : Z := 9223372036854775807.

(** The server's clock in milliseconds, [now] being the Unix time in
    seconds.  The server reads its clock as a signed 64-bit number of
    microseconds, so that its milliseconds lie between 0 and
    [LLONG_MAX / 1000]. *)
Definition mstime (now : Z) : Z :=
  Z.max 0 (Z.min (now * 1000) (LLONG_MAX / 1000)).

(** SETEX: the server answers with the error "invalid expire time", and
    writes nothing, when the time to live is not positive, when its
    milliseconds do not fit a signed 64-bit integer, and when the instant of
    expiry, the clock plus these milliseconds, does not fit one. *)
Definition setex (now : Z) (k : string) (seconds : Z) (v : string)
    (r : redis) : result bool * redis :=
  if (seconds <=? 0) || (LLONG_MAX / 1000 <? seconds)
     || (LLONG_MAX <? seconds * 1000 + mstime now)
  then (Raise ResponseError, r)
  else (Return true,
        with_keyspace
          (<[k := {| value := v; expire_at := Some (now + seconds) |}]>
             (keyspace r)) r).

Definition get (now : Z) (k : string) (r : redis)
    : result (option string) * redis :=
  (Return (value <$> lookup now r k), r).

Definition delete (now : Z) (k : string) (r : redis)
    : result Z * redis :=
  (Return (if lookup now r k is Some _ then 1 else 0),
   with_keyspace (base.delete k (keyspace r)) r).

(** The server's reading of a stored string as an integer: only the
    decimal form that the server itself prints is a number, without plus
    sign, white space, underscores or leading zeros. *)
Definition integer_of (s : string) : option Z :=
  match NilZero.int_of_string s with
  | Some d => if bool_decide (py_str (Z.of_int d) = s)
              then Some (Z.of_int d) else None
  | None => None
  end.

(** INCR: an absent key counts from zero and gets no expiry; the expiry of
    a present key is kept.  The value must be a signed 64-bit integer, and
    so must the incremented value. *)
Definition incr (now : Z) (k : string) (r : redis) : result Z * redis :=
  match lookup now r k with
  | None =>
      (Return 1,
       with_keyspace
         (<[k := {| value := py_str 1; expire_at := None |}]> (keyspace r)) r)
  | Some e =>
      match integer_of (value e) with
      | None => (Raise ResponseError, r)
      | Some n =>
          if (- 2 ^ 63 <=? n) && (n <? 2 ^ 63 - 1) then
            (Return (n + 1),
             with_keyspace
               (<[k := {| value := py_str (n + 1);
                          expire_at := expire_at e |}]> (keyspace r)) r)
          else (Raise ResponseError, r)
      end
  end.

(** EXPIRE: replaces the expiry of a present key; a time to live that is
    not positive removes the key.  The handlers ask for 60 seconds; a time
    to live whose milliseconds overflow the server's 64-bit arithmetic is
    outside this description. *)
Definition expire (now : Z) (k : string) (seconds : Z) (r : redis)
    : result bool * redis :=
  match lookup now r k with
  | None => (Return false, r)
  | Some e =>
      if seconds <=? 0 then
        (Return true, with_keyspace (base.delete k (keyspace r)) r)
      else
        (Return true,
         with_keyspace
           (<[k := {| value := value e;
                      expire_at := Some (now + seconds) |}]> (keyspace r)) r)
  end.

End Redis.

(** ** The database connection

    [users] maps an email to its password hash.  A statement executed on the
    cursor is pending until the commit; either step can fail. *)

Record database := {
  users : gmap string string;
  pending : list (string * string);   (* (hashed password, email) *)
  execute_ok : bool;
  commit_ok : bool
}.

(** UPDATE users SET password = h WHERE email = e: only an existing row
    changes. *)
Definition apply_update (m : gmap string string) (u : string * string)
    : gmap string string :=
  alter (fun _ => fst u) (snd u) m.

(** ** The world *)

(** What a handler does to its collaborators, in program order. *)
Inductive effect :=
| SETEX (key : string) (seconds : Z) (v : string)
| GET (key : string)
| DEL (key : string)
| INCR (key : string)
| EXPIRE (key : string) (seconds : Z)
| SQL_UPDATE_PASSWORD (hashed_password email : string)
| COMMIT
| ADD_TASK (email subject body : string).

Record world := {
  clock : Z;                                (* Unix time, in seconds *)
  redis_client : option redis;
  conn : database;
  token_source : nat -> string;             (* what [secrets] will produce *)
  tokens_drawn : nat;
  trace : list effect
}.

Definition set_redis_client (c : option redis) (w : world) : world :=
  {| clock := clock w; redis_client := c; conn := conn w;
     token_source := token_source w; tokens_drawn := tokens_drawn w;
     trace := trace w |}.

Definition set_conn (d : database) (w : world) : world :=
  {| clock := clock w; redis_client := redis_client w; conn := d;
     token_source := token_source w; tokens_drawn := tokens_drawn w;
     trace := trace w |}.

Definition set_tokens_drawn (n : nat) (w : world) : world :=
  {| clock := clock w; redis_client := redis_client w; conn := conn w;
     token_source := token_source w; tokens_drawn := n;
     trace := trace w |}.

Definition set_clock (t : Z) (w : world) : world :=
  {| clock := t; redis_client := redis_client w; conn := conn w;
     token_source := token_source w; tokens_drawn := tokens_drawn w;
     trace := trace w |}.

Definition emit (e : effect) (w : world) : world :=
  {| clock := clock w; redis_client := redis_client w; conn := conn w;
     token_source := token_source w; tokens_drawn := tokens_drawn w;
     trace := trace w ++ [e] |}.

(** ** Handlers as world transformers *)

Definition M (A : Type) : Type := world -> result A * world.

Definition ret {A} (a : A) : M A := fun w => (Return a, w).

Definition raise {A} (e : exn) : M A := fun w => (Raise e, w).

Definition bind {A B} (m : M A) (k : A -> M B) : M B :=
  fun w =>
    match m w with
    | (Return a, w') => k a w'
    | (Raise e, w') => (Raise e, w')
    end.

Declare Scope py_scope.
Delimit Scope py_scope with py.
Notation "'let*' x ':=' m 'in' k" := (bind m (fun x => k))
  (at level 10, x name, m at level 100, k at level 200) : py_scope.
Open Scope py_scope.

(** A method call on the global [redis_client]: an [AttributeError] when it
    is [None]; otherwise the command is sent at the current time. *)
Definition call {A} (e : effect)
    (cmd : Z -> redis -> result A * redis) : M A :=
  fun w =>
    match redis_client w with
    | None => (Raise AttributeError, w)
    | Some r =>
        let '(a, r') := cmd (clock w) r in
        (a, set_redis_client (Some r') (emit e w))
    end.

Definition redis_setex (k : string) (seconds : Z) (v : string) : M bool :=
  call (SETEX k seconds v) (fun now => Redis.setex now k seconds v).

Definition redis_get (k : string) : M (option string) :=
  call (GET k) (fun now => Redis.get now k).

Definition redis_delete (k : string) : M Z :=
  call (DEL k) (fun now => Redis.delete now k).

Definition redis_incr (k : string) : M Z :=
  call (INCR k) (fun now => Redis.incr now k).

Definition redis_expire (k : string) (seconds : Z) : M bool :=
  call (EXPIRE k seconds) (fun now => Redis.expire now k seconds).

(** The truth value of [redis_client] in [if redis_client:]. *)
Definition redis_client_truthy : M bool :=
  fun w => (Return (if redis_client w is Some _ then true else false), w).

(** [secrets.token_urlsafe(32)]: the next string of the entropy source. *)
Definition token_urlsafe : M string :=
  fun w => (Return (token_source w (tokens_drawn w)),
            set_tokens_drawn (S (tokens_drawn w)) w).

(** [cursor.execute("UPDATE users SET password = %s WHERE email = %s", ...)] *)
Definition cursor_execute (hashed_password email : string) : M unit :=
  fun w =>
    let d := conn w in
    if execute_ok d then
      (Return tt,
       set_conn {| users := users d;
                   pending := pending d ++ [(hashed_password, email)];
                   execute_ok := execute_ok d; commit_ok := commit_ok d |}
         (emit (SQL_UPDATE_PASSWORD hashed_password email) w))
    else (Raise OperationalError, w).

(** [conn.commit()]: the pending statements take effect, or are lost when
    the commit fails. *)
Definition conn_commit : M unit :=
  fun w =>
    let d := conn w in
    if commit_ok d then
      (Return tt,
       set_conn {| users := foldl apply_update (users d) (pending d);
                   pending := [];
                   execute_ok := execute_ok d; commit_ok := commit_ok d |}
         (emit COMMIT w))
    else
      (Raise OperationalError,
       set_conn {| users := users d; pending := [];
                   execute_ok := execute_ok d; commit_ok := commit_ok d |} w).

(** [background_tasks.add_task(send_email, email, subject, body)] *)
Definition send_email_background (email subject body : string) : M unit :=
  fun w => (Return tt, emit (ADD_TASK email subject body) w).

(** ** Redis key names *)

Definition REDIS_REFRESH_KEY (x : string) : string := "refresh:" +:+ x.
Definition REDIS_VERIFY_KEY (x : string) : string := "verify:" +:+ x.
Definition REDIS_RATE_LIMIT_KEY (x : string) : string := "ratelimit:" +:+ x.

Section Backend.

(** [int(os.getenv("REFRESH_TOKEN_EXPIRE_DAYS", 7))] *)
Variable REFRESH_TOKEN_EXPIRE_DAYS : Z.

(** [pwd_context.hash], which the source uses without defining it. *)
Variable pwd_context_hash : string -> string.

Definition rotate_refresh_token (old_token : string) : M string :=
  let* new_token := token_urlsafe in
  let* _ := redis_setex (REDIS_REFRESH_KEY new_token)
              (REFRESH_TOKEN_EXPIRE_DAYS * 86400) "valid" in
  let* _ := redis_delete (REDIS_REFRESH_KEY old_token) in
  ret new_token.

Definition generate_verification_token : M string := token_urlsafe.

Definition store_email_verification_token (email token : string) : M unit :=
  let* c := redis_client_truthy in
  if c then
    let* _ := redis_setex (REDIS_VERIFY_KEY token) 86400 email in
    ret tt
  else ret tt.

Definition get_email_verification_token (token : string)
    : M (option string) :=
  let* c := redis_client_truthy in
  if c then redis_get (REDIS_VERIFY_KEY token)
  else ret None.

Definition forgot_password (email : string) : M JSON :=
  let* reset_token := generate_verification_token in
  let* _ := store_email_verification_token email reset_token in
  let* _ := send_email_background email "Password Reset"
              ("Click here to reset your password: https://yourdomain.com/reset-password?token="
               +:+ reset_token) in
  ret {| message := "Password reset email sent." |}.

(** [not email] holds for [None] and for the empty string. *)
Definition reset_password (token new_password : string) : M JSON :=
  let* email := get_email_verification_token token in
  match email with
  | None | Some EmptyString =>
      raise (HTTPException 400 "Invalid or expired token.")
  | Some email =>
      let hashed_password := pwd_context_hash new_password in
      let* _ := cursor_execute hashed_password email in
      let* _ := conn_commit in
      let* _ := redis_delete (REDIS_VERIFY_KEY token) in
      ret {| message := "Password reset successful." |}
  end.

Definition revoke_token (token : string) : M JSON :=
  let* _ := redis_setex (REDIS_REFRESH_KEY token) 0 "revoked" in
  ret {| message := "Token revoked successfully." |}.

(** [request_count and int(request_count) > 100] *)
Definition over_limit (request_count : option string) : M bool :=
  match request_count with
  | None | Some EmptyString => ret false
  | Some s =>
      match py_int s with
      | Some n => ret (100 <? n)
      | None => raise ValueError
      end
  end.

Definition rate_limit_middleware {A} (user_ip : string) (call_next : M A)
    : M A :=
  let* c := redis_client_truthy in
  let* _ :=
    (if c then
       let* request_count := redis_get (REDIS_RATE_LIMIT_KEY user_ip) in
       let* over := over_limit request_count in
       if over then
         raise (HTTPException 429 "Too many requests. Try again later.")
       else
         let* _ := redis_incr (REDIS_RATE_LIMIT_KEY user_ip) in
         let* _ := redis_expire (REDIS_RATE_LIMIT_KEY user_ip) 60 in
         ret tt
     else ret tt) in
  call_next.

End Backend.

(** ** The guarded handlers over any client object

    [redis.Redis(...)] opens no connection; the connection is made when the
    first command is sent.  When the server cannot be reached,
    [get_redis_connection] therefore still returns a client, which is true
    in [if redis_client:] and whose commands raise [ConnectionError].  The
    handlers that test [redis_client] before they use it are given here over
    any client object, described by its truth value and by what calling its
    methods does; [global_client] is the [redis_client] of the world. *)

Record client_object := {
  truth_value : M bool;
  get_method : string -> M (option string);
  delete_method : string -> M Z;
  incr_method : string -> M Z;
  expire_method : string -> Z -> M bool
}.

Definition global_client : client_object :=
  {| truth_value := redis_client_truthy;
     get_method := redis_get;
     delete_method := redis_delete;
     incr_method := redis_incr;
     expire_method := redis_expire |}.

(** The client of a server that cannot be reached. *)
Definition unreachable_client : client_object :=
  {| truth_value := ret true;
     get_method := fun _ => raise ConnectionError;
     delete_method := fun _ => raise ConnectionError;
     incr_method := fun _ => raise ConnectionError;
     expire_method := fun _ _ => raise ConnectionError |}.

Section Guarded.

Variable pwd_context_hash : string -> string.
Variable redis_client : client_object.

Definition get_email_verification_token_on (token : string)
    : M (option string) :=
  let* c := truth_value redis_client in
  if c then get_method redis_client (REDIS_VERIFY_KEY token)
  else ret None.

Definition reset_password_on (token new_password : string) : M JSON :=
  let* email := get_email_verification_token_on token in
  match email with
  | None | Some EmptyString =>
      raise (HTTPException 400 "Invalid or expired token.")
  | Some email =>
      let hashed_password := pwd_context_hash new_password in
      let* _ := cursor_execute hashed_password email in
      let* _ := conn_commit in
      let* _ := delete_method redis_client (REDIS_VERIFY_KEY token) in
      ret {| message := "Password reset successful." |}
  end.

Definition rate_limit_middleware_on {A} (user_ip : string) (call_next : M A)
    : M A :=
  let* c := truth_value redis_client in
  let* _ :=
    (if c then
       let* request_count :=
         get_method redis_client (REDIS_RATE_LIMIT_KEY user_ip) in
       let* over := over_limit request_count in
       if over then
         raise (HTTPException 429 "Too many requests. Try again later.")
       else
         let* _ := incr_method redis_client (REDIS_RATE_LIMIT_KEY user_ip) in
         let* _ :=
           expire_method redis_client (REDIS_RATE_LIMIT_KEY user_ip) 60 in
         ret tt
     else ret tt) in
  call_next.

End Guarded.

(** ** Observing the store *)

(** The record under [k] that a command sent now would find. *)
Definition record_of (w : world) (k : string) : option entry :=
  match redis_client w with
  | Some r => Redis.lookup (clock w) r k
  | None => None
  end.

Definition stored (w : world) (k : string) : option string :=
  value <$> record_of w k.

(** Modelled from the spec: the source has no function that validates a
    refresh token.  The spec's data model says that "a RefreshToken record's
    presence with status=valid is necessary and sufficient for the token to
    be accepted", and its error handling that a token whose validity cannot
    be confirmed, the store being unavailable, is not accepted. *)
Definition validate_refresh_token (token : string) : M bool :=
  let* c := redis_client_truthy in
  if c then
    let* status := redis_get (REDIS_REFRESH_KEY token) in
    ret (bool_decide (status = Some "valid"))
  else ret false.

(** ** Runs of the service *)

Inductive request :=
| ForgotPassword (email : string)
| ResetPassword (token new_password : string)
| RevokeToken (token : string).

Inductive event :=
| Http (user_ip : string) (req : request)  (* a request, via the middleware *)
| Rotate (old_token : string)              (* [rotate_refresh_token] is called *)
| Elapse (seconds : nat).                  (* time passes *)

Section Runs.

Variable REFRESH_TOKEN_EXPIRE_DAYS : Z.
Variable pwd_context_hash : string -> string.

Definition handle (req : request) : M JSON :=
  match req with
  | ForgotPassword email => forgot_password email
  | ResetPassword token new_password =>
      reset_password pwd_context_hash token new_password
  | RevokeToken token => revoke_token token
  end.

Definition step (w : world) (ev : event) : world :=
  match ev with
  | Http user_ip req => snd (rate_limit_middleware user_ip (handle req) w)
  | Rotate old_token =>
      snd (rotate_refresh_token REFRESH_TOKEN_EXPIRE_DAYS old_token w)
  | Elapse seconds => set_clock (clock w + Z.of_nat seconds) w
  end.

Definition run (evs : list event) (w : world) : world := foldl step w evs.

End Runs.

(** A client sending [n] requests to an endpoint that answers [resp], one
    every [gap] seconds: the answers, oldest first, and the world reached. *)
Fixpoint burst (n : nat) (gap : nat) (user_ip : string) (resp : JSON)
    (w : world) : list (result JSON) * world :=
  match n with
  | O => ([], w)
  | S n' =>
      let '(a, w1) := rate_limit_middleware user_ip (ret resp) w in
      let '(l, w2) :=
        burst n' gap user_ip resp (set_clock (clock w1 + Z.of_nat gap) w1) in
      (a :: l, w2)
  end.

(** The world after the SETEX of a rotation that drew [new_token], before
    its DEL. *)
Definition rotation_written (REFRESH_TOKEN_EXPIRE_DAYS : Z)
    (new_token : string) (w : world) (r : redis) : world :=
  set_redis_client
    (Some (Redis.with_keyspace
             (<[REDIS_REFRESH_KEY new_token :=
                  {| value := "valid";
                     expire_at :=
                       Some (clock w + REFRESH_TOKEN_EXPIRE_DAYS * 86400) |}]>
                (keyspace r)) r))
    (emit (SETEX (REDIS_REFRESH_KEY new_token)
             (REFRESH_TOKEN_EXPIRE_DAYS * 86400) "valid")
       (set_tokens_drawn (S (tokens_drawn w)) w)).

(** The same connection once the database accepts statements and commits
    again. *)
Definition repaired (d : database) : database :=
  {| users := users d; pending := pending d;
     execute_ok := true; commit_ok := true |}.

(** ** Reasoning about handlers

    [triple I P m Q]: started in a world satisfying [P], the handler [m]
    either returns a value [a] in a world satisfying [Q a], or raises in a
    world satisfying [I]. *)
Definition triple (I : world -> Prop) {A} (P : world -> Prop) (m : M A)
    (Q : A -> world -> Prop) : Prop :=
  forall w : world,
    P w ->
    match m w with
    | (Return a, w') => Q a w'
    | (Raise _, w') => I w'
    end.

(** [keeps I m]: [m] maintains the invariant [I], whether it returns or
    raises. *)
Definition keeps (I : world -> Prop) {A} (m : M A) : Prop :=
  triple I I m (fun _ => I).

(** The verification token [V] has no record, not even an expired one, and
    the entropy source will not produce [V] again. *)
Definition unissued (V : string) (w : world) : Prop :=
  (forall r : redis,
      redis_client w = Some r -> keyspace r !! REDIS_VERIFY_KEY V = None) /\
  (forall n : nat, (tokens_drawn w <= n)%nat -> token_source w n <> V).

(** ** The rate limiter's counter *)

(** The client has made [n] counted requests in the running window: no
    record for [n = 0], a record holding [n] otherwise. *)
Definition counted (w : world) (user_ip : string) (n : Z) : Prop :=
  (n = 0 /\ stored w (REDIS_RATE_LIMIT_KEY user_ip) = None) \/
  (0 < n /\ stored w (REDIS_RATE_LIMIT_KEY user_ip) = Some (py_str n)).

(** The instant at which the client's counter expires, when the counter is
    present and has an expiry. *)
Definition window_expiry (w : world) (user_ip : string) : option Z :=
  match record_of w (REDIS_RATE_LIMIT_KEY user_ip) with
  | Some e => expire_at e
  | None => None
  end.

(** The world in which the middleware calls the next handler after it has
    counted a request as the [count]-th one. *)
Definition admitted (user_ip : string) (count : Z) (w : world) (r : redis)
    : world :=
  set_redis_client
    (Some (Redis.with_keyspace
             (<[REDIS_RATE_LIMIT_KEY user_ip :=
                  {| value := py_str count;
                     expire_at := Some (clock w + 60) |}]> (keyspace r)) r))
    (emit (EXPIRE (REDIS_RATE_LIMIT_KEY user_ip) 60)
       (emit (INCR (REDIS_RATE_LIMIT_KEY user_ip))
          (emit (GET (REDIS_RATE_LIMIT_KEY user_ip)) w))).

(** The fixed window as the specification words it: a request admitted
    while the client's window is running leaves the expiry of that window
    as it was. *)
Definition expiry_set_once : Prop :=
  forall (w w' : world) (user_ip : string) (resp : JSON) (t : Z),
    window_expiry w user_ip = Some t ->
    rate_limit_middleware user_ip (ret resp) w = (Return resp, w') ->
    window_expiry w' user_ip = Some t.

(** Every rate-limit counter in the store, expired or not, holds a number
    between 1 and 101. *)
Definition bounded_counters (w : world) : Prop :=
  forall (r : redis) (user_ip : string) (e : entry),
    redis_client w = Some r ->
    keyspace r !! REDIS_RATE_LIMIT_KEY user_ip = Some e ->
    exists n : Z, value e = py_str n /\ 1 <= n <= 101.

(** ** Sample worlds *)

(** A world at time 0 with an empty store and one user. *)
Definition sample_world : world :=
  {| clock := 0;
     redis_client := Some {| keyspace := ∅ |};
     conn := {| users := {[ "a@example.com" := "old-hash" ]};
                pending := []; execute_ok := true; commit_ok := true |};
     token_source := fun n => match n with O => "Zm9v" | S _ => "YmFy" end;
     tokens_drawn := 0;
     trace := [] |}.

Definition OK : JSON := {| message := "ok" |}.

(** The sample world without a store connection. *)
Definition offline_world : world := set_redis_client None sample_world.

(** The sample world after a first rotation has issued the refresh token
    "Zm9v". *)
Definition refresh_world : world :=
  snd (rotate_refresh_token 7 "" sample_world).

(** The sample world after [forgot_password] has issued the verification
    token "Zm9v" for the user. *)
Definition verify_world : world :=
  snd (forgot_password "a@example.com" sample_world).

(** [verify_world] with a database that refuses commits. *)
Definition verify_world_db_down : world :=
  set_conn {| users := users (conn verify_world);
              pending := pending (conn verify_world);
              execute_ok := true; commit_ok := false |} verify_world.

(** The sample world 30 seconds after a first request of the client "A". *)
Definition second_request_world : world :=
  set_clock 30
    (snd (rate_limit_middleware "A" (ret OK) sample_world)).

(** The sample world after 101 requests of the client "A". *)
Definition blocked_world : world :=
  snd (burst 101 0 "A" OK sample_world).

(** The store of a world that has one. *)
Definition the_redis (w : world) : redis :=
  match redis_client w with
  | Some r => r
  | None => {| keyspace := ∅ |}
  end.


(** ** Start-up

    What the module does when it is loaded: it checks the environment,
    reads its settings and opens the store connection. *)

(** [os.getenv(var)] in the environment left by [load_dotenv()]. *)
Definition os_getenv (environ : gmap string string) (var : string)
    : option string :=
  environ !! var.

Definition required_env_vars : list string :=
  ["SECRET_KEY"; "REFRESH_SECRET_KEY"; "DB_NAME"; "DB_USER"; "DB_PASSWORD";
   "DB_HOST"; "SMTP_SERVER"; "SMTP_USERNAME"; "SMTP_PASSWORD"; "REDIS_HOST";
   "REDIS_PORT"].

(** [not os.getenv(var)]: the variable is unset or empty. *)
Definition not_set (environ : gmap string string) (var : string) : bool :=
  match os_getenv environ var with
  | Some (String _ _) => false
  | _ => true
  end.

(** The loop over the required variables; [inl message] stands for
    [raise ValueError(message)]. *)
Fixpoint check_env_vars (environ : gmap string string) (vars : list string)
    : string + unit :=
  match vars with
  | [] => inr tt
  | var :: rest =>
      if not_set environ var then
        inl ("Missing required environment variable: " +:+ var)
      else check_env_vars environ rest
  end.

Definition validate_environment (environ : gmap string string)
    : string + unit :=
  check_env_vars environ required_env_vars.

(** [int(os.getenv(var, default))] for an integer [default]; [None] stands
    for the [ValueError] of [int]. *)
Definition getenv_int (environ : gmap string string) (var : string)
    (default : Z) : option Z :=
  match os_getenv environ var with
  | Some s => py_int s
  | None => Some default
  end.

Definition ACCESS_TOKEN_EXPIRE_MINUTES (environ : gmap string string)
    : option Z :=
  getenv_int environ "ACCESS_TOKEN_EXPIRE_MINUTES" 30.

Definition CONFIGURED_REFRESH_TOKEN_EXPIRE_DAYS
    (environ : gmap string string) : option Z :=
  getenv_int environ "REFRESH_TOKEN_EXPIRE_DAYS" 7.

(** Why an attempt to build the client failed: the port is not a number, or
    the constructor raised an exception with the given text. *)
Inductive connect_error :=
| BadPort (port : string)
| ConstructorRaised (text : string).

(** [logger.error(f"Redis connection attempt {attempt+1} failed: {e}")] *)
Record error_line := { attempt_number : nat; cause : connect_error }.

Section Connection.

(** [redis.Redis(host=..., port=..., password=..., db=0, ...)]: the
    constructor, which either gives a client or raises; the attempt number
    stands for the state of the outside world at that attempt. *)
Variable redis_Redis :
  string -> Z -> option string -> nat -> string + redis.

(** The body of the [try]: the arguments are evaluated, then the constructor
    is called. *)
Definition connect_once (environ : gmap string string) (attempt : nat)
    : connect_error + redis :=
  let host := default "localhost" (os_getenv environ "REDIS_HOST") in
  match getenv_int environ "REDIS_PORT" 6379 with
  | None => inl (BadPort (default "" (os_getenv environ "REDIS_PORT")))
  | Some port =>
      match redis_Redis host port (os_getenv environ "REDIS_PASSWORD") attempt
      with
      | inl text => inl (ConstructorRaised text)
      | inr client => inr client
      end
  end.

Definition retries : nat := 3.

(** The loop [for attempt in range(retries)], [todo] iterations from
    [attempt] on; a loop that runs out returns [None] as Python does. *)
Fixpoint connection_attempts (environ : gmap string string)
    (attempt todo : nat) (log : list error_line)
    : option redis * list error_line :=
  match todo with
  | O => (None, log)
  | S todo' =>
      match connect_once environ attempt with
      | inr client => (Some client, log)
      | inl e =>
          let log' :=
            log ++ [{| attempt_number := attempt + 1; cause := e |}] in
          if (attempt =? retries - 1)%nat then (None, log')
          else connection_attempts environ (S attempt) todo' log'
      end
  end.

(** The client, or [None], and the errors logged on the way. *)
Definition get_redis_connection (environ : gmap string string)
    : option redis * list error_line :=
  connection_attempts environ 0 retries [].

End Connection.

(** An ASCII letter. *)
Definition is_letter (c : Ascii.ascii) : bool :=
  let n := Ascii.nat_of_ascii c in
  ((65 <=? n) && (n <=? 90) || (97 <=? n) && (n <=? 122))%nat.

(** The link that [forgot_password] mails for a token. *)
Definition reset_link (reset_token : string) : string :=
  "Click here to reset your password: https://yourdomain.com/reset-password?token="
  +:+ reset_token.

(** A sample environment with every required variable set. *)
Definition sample_environ : gmap string string :=
  list_to_map
    [("SECRET_KEY", "k1"); ("REFRESH_SECRET_KEY", "k2"); ("DB_NAME", "esl");
     ("DB_USER", "api"); ("DB_PASSWORD", "pw"); ("DB_HOST", "db");
     ("SMTP_SERVER", "smtp"); ("SMTP_USERNAME", "noreply@example.com");
     ("SMTP_PASSWORD", "pw"); ("REDIS_HOST", "cache"); ("REDIS_PORT", "6380")].

(** A constructor that raises on its first two attempts. *)
Definition flaky_Redis (host : string) (port : Z) (password : option string)
    (attempt : nat) : string + redis :=
  if (attempt <? 2)%nat then inl "timeout" else inr {| keyspace := ∅ |}.

(** The store holds under every key other than [k0] what it holds in [w0],
    as seen at the same time. *)
Definition same_records_but (k0 : string) (w0 w : world) : Prop :=
  forall k : string, k <> k0 -> record_of w k = record_of w0 k.

(** The requests [reqs] of one client, handled one after the other without
    delay: the answers, oldest first, and the world reached. *)
Fixpoint serve (pwd_context_hash : string -> string) (user_ip : string)
    (reqs : list request) (w : world) : list (result JSON) * world :=
  match reqs with
  | [] => ([], w)
  | req :: rest =>
      let '(a, w1) :=
        rate_limit_middleware user_ip (handle pwd_context_hash req) w in
      let '(l, w2) := serve pwd_context_hash user_ip rest w1 in
      (a :: l, w2)
  end.

(** There is a store, and in it the client has [n] counted requests. *)
Definition counting (user_ip : string) (n : Z) (w : world) : Prop :=
  (exists r : redis, redis_client w = Some r) /\ counted w user_ip n.
(** * Properties *)

(** ** Decimal strings and key names *)

Lemma digits_value_uint (d : Decimal.uint) (acc : Z) (b : bool) :
  d <> Decimal.Nil \/ b = true ->
  digits_value acc b (NilEmpty.string_of_uint d) = Some (uint_value d acc).
Proof.
  revert acc b.
  induction d as [|d IH|d IH|d IH|d IH|d IH|d IH|d IH|d IH|d IH|d IH];
    intros acc b H;
    [by destruct H as [H | ->]|..];
    cbn [NilEmpty.string_of_uint digits_value uint_value];
    match goal with
    | |- context [digit_value ?c] =>
        let v := eval vm_compute in (digit_value c) in
        change (digit_value c) with v
    end;
    cbn iota; apply IH; by right.
Qed.

Lemma uint_value_acc (d : Decimal.uint) (p : positive) :
  uint_value d (Z.pos p) = Z.pos (Pos.of_uint_acc d p).
Proof.
  revert p.
  induction d as [|d IH|d IH|d IH|d IH|d IH|d IH|d IH|d IH|d IH|d IH];
    intros p; cbn [uint_value Pos.of_uint_acc]; [done|..];
    rewrite <- IH; f_equal; lia.
Qed.

Lemma uint_value_of_uint (d : Decimal.uint) :
  uint_value d 0 = Z.of_N (Pos.of_uint d).
Proof.
  induction d as [|d IH|d IH|d IH|d IH|d IH|d IH|d IH|d IH|d IH|d IH];
    cbn [uint_value Pos.of_uint]; [done|exact IH|..];
    apply uint_value_acc.
Qed.

Lemma rstrip_uint (d : Decimal.uint) :
  rstrip (NilEmpty.string_of_uint d) = NilEmpty.string_of_uint d.
Proof.
  induction d as [|d IH|d IH|d IH|d IH|d IH|d IH|d IH|d IH|d IH|d IH];
    [done|..];
    cbn [NilEmpty.string_of_uint rstrip]; rewrite IH;
    by destruct (NilEmpty.string_of_uint d).
Qed.

Lemma py_int_uint (d : Decimal.uint) :
  d <> Decimal.Nil ->
  py_int (NilEmpty.string_of_uint d) = Some (uint_value d 0) /\
  py_int ("-" +:+ NilEmpty.string_of_uint d) = Some (- uint_value d 0).
Proof.
  intros Hd.
  assert (Hl : lstrip (NilEmpty.string_of_uint d) = NilEmpty.string_of_uint d)
    by (by destruct d).
  pose proof (digits_value_uint d 0 false (or_introl Hd)) as Hv.
  split.
  - unfold py_int. rewrite Hl, rstrip_uint. rewrite <- Hv.
    by destruct d.
  - unfold py_int.
    change ("-" +:+ NilEmpty.string_of_uint d)
      with (String (Ascii.ascii_of_nat 45) (NilEmpty.string_of_uint d)).
    cbn [lstrip]. change (is_space _) with false. cbn iota.
    cbn [rstrip]. rewrite rstrip_uint.
    destruct (NilEmpty.string_of_uint d) eqn:E; [by destruct d|].
    cbn iota.
    change (Ascii.nat_of_ascii (Ascii.ascii_of_nat 45) =? 45)%nat with true.
    cbn iota. by rewrite Hv.
Qed.

Lemma py_str_uint (z : Z) :
  z <> 0 ->
  exists d : Decimal.uint,
    d <> Decimal.Nil /\
    py_str z =
      (if 0 <? z then NilEmpty.string_of_uint d
       else "-" +:+ NilEmpty.string_of_uint d) /\
    uint_value d 0 = Z.abs z.
Proof.
  intros Hz. destruct z as [|p|p]; [done|..]; exists (Pos.to_uint p).
  - split; [apply Unsigned.to_uint_nonnil|]. split.
    + unfold py_str. simpl. pose proof (Unsigned.to_uint_nonnil p).
      by destruct (Pos.to_uint p).
    + by rewrite uint_value_of_uint, Unsigned.of_to.
  - split; [apply Unsigned.to_uint_nonnil|]. split.
    + unfold py_str. simpl. pose proof (Unsigned.to_uint_nonnil p).
      by destruct (Pos.to_uint p).
    + by rewrite uint_value_of_uint, Unsigned.of_to.
Qed.

Lemma py_int_str (z : Z) : py_int (py_str z) = Some z.
Proof.
  destruct (decide (z = 0)) as [->|Hz]; [reflexivity|].
  destruct (py_str_uint z Hz) as (d & Hd & -> & Hv).
  destruct (py_int_uint d Hd) as [Hpos Hneg].
  destruct (0 <? z) eqn:E.
  - rewrite Hpos, Hv. f_equal. apply Z.ltb_lt in E. lia.
  - rewrite Hneg, Hv. f_equal. apply Z.ltb_ge in E. lia.
Qed.

Lemma integer_of_str (z : Z) : Redis.integer_of (py_str z) = Some z.
Proof.
  unfold Redis.integer_of, py_str. rewrite NilZero.isi.
  - rewrite DecimalZ.of_to. by rewrite bool_decide_true.
  - destruct z; simpl; try discriminate.
    intros [= H]. by apply Unsigned.to_uint_nonnil in H.
  - destruct z; simpl; try discriminate.
    intros [= H]. by apply Unsigned.to_uint_nonnil in H.
Qed.

Lemma py_str_nonempty (z : Z) : py_str z <> EmptyString.
Proof.
  intros H. pose proof (py_int_str z) as P. rewrite H in P. discriminate.
Qed.

Lemma refresh_key_inj (a b : string) :
  REDIS_REFRESH_KEY a = REDIS_REFRESH_KEY b -> a = b.
Proof. unfold REDIS_REFRESH_KEY. intros H. by simplify_eq/=. Qed.

Lemma verify_key_inj (a b : string) :
  REDIS_VERIFY_KEY a = REDIS_VERIFY_KEY b -> a = b.
Proof. unfold REDIS_VERIFY_KEY. intros H. by simplify_eq/=. Qed.

Lemma rate_limit_key_inj (a b : string) :
  REDIS_RATE_LIMIT_KEY a = REDIS_RATE_LIMIT_KEY b -> a = b.
Proof. unfold REDIS_RATE_LIMIT_KEY. intros H. by simplify_eq/=. Qed.

Lemma refresh_verify_key (a b : string) :
  REDIS_REFRESH_KEY a <> REDIS_VERIFY_KEY b.
Proof. discriminate. Qed.

Lemma rate_limit_verify_key (a b : string) :
  REDIS_RATE_LIMIT_KEY a <> REDIS_VERIFY_KEY b.
Proof. discriminate. Qed.

Lemma rate_limit_refresh_key (a b : string) :
  REDIS_RATE_LIMIT_KEY a <> REDIS_REFRESH_KEY b.
Proof. discriminate. Qed.

(** ** Without a store *)

Section Unavailable.

Variable pwd_context_hash : string -> string.

(** When [redis_client] is [None], the rate limiter hands every request on
    to the next handler without touching anything, and [reset_password]
    answers every token with the 400 error, changing nothing. *)
Theorem store_unavailable_open_and_closed (w : world) :
  redis_client w = None ->
  (forall (A : Type) (user_ip : string) (call_next : M A),
      rate_limit_middleware user_ip call_next w = call_next w) /\
  (forall token new_password : string,
      reset_password pwd_context_hash token new_password w =
        (Raise (HTTPException 400 "Invalid or expired token."), w)).
Proof.
  intros Hnone. split.
  - intros A user_ip call_next.
    unfold rate_limit_middleware, bind, redis_client_truthy.
    by rewrite Hnone.
  - intros token new_password.
    unfold reset_password, get_email_verification_token, bind,
      redis_client_truthy.
    by rewrite Hnone.
Qed.

(** The guarded handlers over the global client are the handlers. *)
Lemma guarded_handlers_on_global_client :
  (forall (A : Type) (user_ip : string) (call_next : M A),
      rate_limit_middleware_on global_client user_ip call_next =
        rate_limit_middleware user_ip call_next) /\
  (forall token : string,
      get_email_verification_token_on global_client token =
        get_email_verification_token token) /\
  (forall token new_password : string,
      reset_password_on pwd_context_hash global_client token new_password =
        reset_password pwd_context_hash token new_password).
Proof. by repeat split. Qed.

(** C7. With a client whose server cannot be reached, the rate limiter does
    not admit the request: the client is true in [if redis_client:], so the
    limiter sends its GET, which raises [ConnectionError], and the next
    handler is not called.  [reset_password] raises in the same way for
    every token and so accepts none.  Nothing is changed or logged in
    either case. *)
Theorem unreachable_store_request_not_admitted (w : world) :
  (forall (A : Type) (user_ip : string) (call_next : M A),
      rate_limit_middleware_on unreachable_client user_ip call_next w =
        (Raise ConnectionError, w)) /\
  (forall token new_password : string,
      reset_password_on pwd_context_hash unreachable_client token
        new_password w = (Raise ConnectionError, w)).
Proof. by split. Qed.

End Unavailable.

(** ** Store commands *)

Lemma call_present {A} (e : effect) (cmd : Z -> redis -> result A * redis)
    (w : world) (r : redis) :
  redis_client w = Some r ->
  call e cmd w =
    (fst (cmd (clock w) r),
     set_redis_client (Some (snd (cmd (clock w) r))) (emit e w)).
Proof. intros H. unfold call. rewrite H. by destruct (cmd (clock w) r). Qed.

Lemma emit_present (w : world) (r : redis) (e : effect) :
  redis_client w = Some r -> set_redis_client (Some r) (emit e w) = emit e w.
Proof. intros H. destruct w. simpl in *. by subst. Qed.

Lemma record_of_present (w : world) (r : redis) (k : string) :
  redis_client w = Some r -> record_of w k = Redis.lookup (clock w) r k.
Proof. intros H. unfold record_of. by rewrite H. Qed.

Lemma lookup_insert_other (now : Z) (r : redis) (k k' : string) (e : entry) :
  k <> k' ->
  Redis.lookup now (Redis.with_keyspace (<[k := e]> (keyspace r)) r) k' =
    Redis.lookup now r k'.
Proof.
  intros H. unfold Redis.lookup. simpl. by rewrite lookup_insert_ne.
Qed.

(** What the server answers to SETEX. *)
Lemma mstime_bounds (now : Z) :
  0 <= Redis.mstime now <= Redis.LLONG_MAX / 1000.
Proof.
  unfold Redis.mstime, Redis.LLONG_MAX.
  change (9223372036854775807 / 1000) with 9223372036854775. lia.
Qed.

Lemma setex_refused (now : Z) (k : string) (seconds : Z) (v : string)
    (r : redis) :
  seconds <= 0 -> Redis.setex now k seconds v r = (Raise ResponseError, r).
Proof.
  intros H. unfold Redis.setex.
  by assert ((seconds <=? 0) = true) as -> by (apply Z.leb_le; lia).
Qed.

Lemma setex_too_long (now : Z) (k : string) (seconds : Z) (v : string)
    (r : redis) :
  Redis.LLONG_MAX < seconds * 1000 + Redis.mstime now ->
  Redis.setex now k seconds v r = (Raise ResponseError, r).
Proof.
  intros H. unfold Redis.setex.
  assert ((Redis.LLONG_MAX <? seconds * 1000 + Redis.mstime now) = true)
    as -> by (apply Z.ltb_lt; lia).
  by rewrite orb_true_r.
Qed.

Lemma setex_written (now : Z) (k : string) (seconds : Z) (v : string)
    (r : redis) :
  0 < seconds ->
  seconds * 1000 + Redis.mstime now <= Redis.LLONG_MAX ->
  Redis.setex now k seconds v r =
    (Return true,
     Redis.with_keyspace
       (<[k := {| value := v; expire_at := Some (now + seconds) |}]>
          (keyspace r)) r).
Proof.
  intros Hpos Hfit. pose proof (mstime_bounds now) as Hm.
  unfold Redis.setex.
  assert ((seconds <=? 0) = false) as -> by (apply Z.leb_gt; lia).
  assert ((Redis.LLONG_MAX <? seconds * 1000 + Redis.mstime now) = false)
    as -> by (apply Z.ltb_ge; lia).
  assert ((Redis.LLONG_MAX / 1000 <? seconds) = false) as ->; [|done].
  apply Z.ltb_ge. unfold Redis.LLONG_MAX in *.
  change (9223372036854775807 / 1000) with 9223372036854775 in *. lia.
Qed.

(** A time to live of one day is accepted at every time of the clock. *)
Lemma setex_day (now : Z) (k v : string) (r : redis) :
  Redis.setex now k 86400 v r =
    (Return true,
     Redis.with_keyspace
       (<[k := {| value := v; expire_at := Some (now + 86400) |}]>
          (keyspace r)) r).
Proof.
  pose proof (mstime_bounds now) as Hm.
  apply setex_written; [lia|].
  unfold Redis.LLONG_MAX in *.
  change (9223372036854775807 / 1000) with 9223372036854775 in *. lia.
Qed.

(** ** Revocation *)

(** The SETEX of [revoke_token] asks for a time to live of zero, which the
    store refuses: the handler raises for every token and the store keeps
    what it had. *)
Lemma revoke_token_refused (w : world) (r : redis) (T : string) :
  redis_client w = Some r ->
  revoke_token T w =
    (Raise ResponseError, emit (SETEX (REDIS_REFRESH_KEY T) 0 "revoked") w).
Proof.
  intros Hr. unfold revoke_token, bind, redis_setex.
  rewrite (call_present _ _ _ _ Hr). rewrite setex_refused by lia. simpl.
  by rewrite (emit_present _ _ _ Hr).
Qed.

(** C5. [revoke_token] does not revoke: called on the valid refresh token
    "Zm9v" it raises (the store refuses the zero time to live), and the
    token is as valid after the call as before; called again, or on a token
    that was never issued, it raises in the same way instead of answering
    with its success message. *)
Theorem revoke_token_leaves_token_valid :
  fst (validate_refresh_token "Zm9v" refresh_world) = Return true /\
  fst (revoke_token "Zm9v" refresh_world) = Raise ResponseError /\
  fst (validate_refresh_token "Zm9v"
         (snd (revoke_token "Zm9v" refresh_world))) = Return true /\
  fst (revoke_token "Zm9v" (snd (revoke_token "Zm9v" refresh_world))) =
    Raise ResponseError /\
  fst (revoke_token "never-issued" refresh_world) = Raise ResponseError.
Proof. repeat split; vm_compute; reflexivity. Qed.

(** ** Rotation *)

Lemma valid_record_validates (w : world) (T : string) :
  stored w (REDIS_REFRESH_KEY T) = Some "valid" ->
  fst (validate_refresh_token T w) = Return true.
Proof.
  unfold stored, record_of, validate_refresh_token, bind, redis_client_truthy,
    redis_get, call.
  destruct (redis_client w) as [r|] eqn:Hr; [|done].
  unfold Redis.get. intros H. cbn beta iota. rewrite Hr. cbn beta iota.
  by rewrite H.
Qed.

Lemma absent_record_fails (w : world) (T : string) :
  stored w (REDIS_REFRESH_KEY T) = None ->
  fst (validate_refresh_token T w) = Return false.
Proof.
  unfold stored, record_of, validate_refresh_token, bind, redis_client_truthy,
    redis_get, call.
  destruct (redis_client w) as [r|] eqn:Hr; [|done].
  unfold Redis.get. intros H. cbn beta iota. rewrite Hr. cbn beta iota.
  by rewrite H.
Qed.

Section Rotation.

Variable REFRESH_TOKEN_EXPIRE_DAYS : Z.
Hypothesis positive_ttl : 0 < REFRESH_TOKEN_EXPIRE_DAYS.

(** The configured time to live is accepted by the store at the time of
    [w]: its milliseconds, added to the server's clock, fit a signed 64-bit
    integer. *)
Lemma rotate_refresh_token_run (w : world) (r : redis) (old_token : string) :
  redis_client w = Some r ->
  REFRESH_TOKEN_EXPIRE_DAYS * 86400 * 1000 + Redis.mstime (clock w) <=
    Redis.LLONG_MAX ->
  rotate_refresh_token REFRESH_TOKEN_EXPIRE_DAYS old_token w =
    (Return (token_source w (tokens_drawn w)),
     snd (redis_delete (REDIS_REFRESH_KEY old_token)
            (rotation_written REFRESH_TOKEN_EXPIRE_DAYS
               (token_source w (tokens_drawn w)) w r))).
Proof.
  intros Hr Hfit. unfold rotate_refresh_token, bind, token_urlsafe, redis_setex.
  rewrite (call_present _ _ _ r) by exact Hr.
  rewrite setex_written by (simpl; lia).
  simpl.
  unfold redis_delete, rotation_written, call. by simpl.
Qed.

Lemma fresh_record_live (now : Z) :
  Redis.live now
    {| value := "valid";
       expire_at := Some (now + REFRESH_TOKEN_EXPIRE_DAYS * 86400) |} = true.
Proof. unfold Redis.live. simpl. apply Z.ltb_lt. lia. Qed.

(** C1. Rotating a token [T] whose record is present with status "valid"
    returns the newly generated token [T'] (distinct from [T]); afterwards
    the record of [T'] is present with status "valid" and validates, the
    record of [T] is absent and does not validate, and the two store
    commands were sent in the order SETEX of the new record, DEL of the old
    one: in the world between the two commands both tokens are valid. *)
Theorem rotate_refresh_token_replaces (w : world) (r : redis) (T : string) :
  redis_client w = Some r ->
  REFRESH_TOKEN_EXPIRE_DAYS * 86400 * 1000 + Redis.mstime (clock w) <=
    Redis.LLONG_MAX ->
  stored w (REDIS_REFRESH_KEY T) = Some "valid" ->
  token_source w (tokens_drawn w) <> T ->
  exists (T' : string) (w_mid w' : world),
    rotate_refresh_token REFRESH_TOKEN_EXPIRE_DAYS T w = (Return T', w') /\
    stored w' (REDIS_REFRESH_KEY T') = Some "valid" /\
    fst (validate_refresh_token T' w') = Return true /\
    stored w' (REDIS_REFRESH_KEY T) = None /\
    fst (validate_refresh_token T w') = Return false /\
    trace w' =
      trace w ++ [SETEX (REDIS_REFRESH_KEY T')
                    (REFRESH_TOKEN_EXPIRE_DAYS * 86400) "valid";
                  DEL (REDIS_REFRESH_KEY T)] /\
    trace w_mid =
      trace w ++ [SETEX (REDIS_REFRESH_KEY T')
                    (REFRESH_TOKEN_EXPIRE_DAYS * 86400) "valid"] /\
    stored w_mid (REDIS_REFRESH_KEY T') = Some "valid" /\
    stored w_mid (REDIS_REFRESH_KEY T) = Some "valid" /\
    redis_delete (REDIS_REFRESH_KEY T) w_mid = (Return 1, w').
Proof.
  intros Hr Hfit Hv Hne.
  set (T' := token_source w (tokens_drawn w)) in *.
  assert (Hk : REDIS_REFRESH_KEY T' <> REDIS_REFRESH_KEY T)
    by (intros E; by apply refresh_key_inj in E).
  pose proof (fresh_record_live (clock w)) as Hlive.
  unfold stored in Hv. rewrite (record_of_present _ _ _ Hr) in Hv.
  set (w_mid := rotation_written REFRESH_TOKEN_EXPIRE_DAYS T' w r).
  set (w' := snd (redis_delete (REDIS_REFRESH_KEY T) w_mid)).
assert (Hmid' : stored w_mid (REDIS_REFRESH_KEY T') = Some "valid").
  { unfold stored, record_of, w_mid, rotation_written, Redis.lookup. simpl.
    by rewrite lookup_insert_eq, Hlive. }
  assert (Hmid : stored w_mid (REDIS_REFRESH_KEY T) = Some "valid").
  { unfold stored, record_of, w_mid, rotation_written. simpl.
    by rewrite lookup_insert_other. }
  assert (Hdel : redis_delete (REDIS_REFRESH_KEY T) w_mid = (Return 1, w')).
  { unfold w', redis_delete, w_mid, rotation_written, call. simpl.
    rewrite lookup_insert_other by exact Hk.
    destruct (Redis.lookup (clock w) r (REDIS_REFRESH_KEY T)); done. }
  assert (Hnew : stored w' (REDIS_REFRESH_KEY T') = Some "valid").
  { unfold w', redis_delete, w_mid, rotation_written, call.
    unfold stored, record_of, Redis.lookup. simpl.
    rewrite lookup_delete_ne by (intros E; by apply Hk).
    by rewrite lookup_insert_eq, Hlive. }
  assert (Hold : stored w' (REDIS_REFRESH_KEY T) = None).
  { unfold w', redis_delete, w_mid, rotation_written, call.
    unfold stored, record_of, Redis.lookup. simpl.
    by rewrite lookup_delete_eq. }
  exists T', w_mid, w'.
  split; [by apply rotate_refresh_token_run|].
  split; [exact Hnew|].
  split; [by apply valid_record_validates|].
  split; [exact Hold|].
  split; [by apply absent_record_fails|].
  split.
  { unfold w', redis_delete, w_mid, rotation_written, call. simpl.
    by rewrite <- app_assoc. }
  split; [done|].
  split; [exact Hmid'|].
  split; [exact Hmid|].
  exact Hdel.
Qed.

(** C8. Whatever the old token is, and whether or not the store holds a
    record for it, rotation does not fail: it returns the freshly generated
    token, having sent the SETEX that writes its record as "valid" with the
    configured time to live and then the DEL of the old key; unless the
    generated token is the old token itself, that record is present
    afterwards and expires after the configured number of days. *)
Theorem rotate_refresh_token_total (w : world) (r : redis)
    (old_token : string) :
  redis_client w = Some r ->
  REFRESH_TOKEN_EXPIRE_DAYS * 86400 * 1000 + Redis.mstime (clock w) <=
    Redis.LLONG_MAX ->
  exists w' : world,
    rotate_refresh_token REFRESH_TOKEN_EXPIRE_DAYS old_token w =
      (Return (token_source w (tokens_drawn w)), w') /\
    trace w' =
      trace w ++ [SETEX (REDIS_REFRESH_KEY (token_source w (tokens_drawn w)))
                    (REFRESH_TOKEN_EXPIRE_DAYS * 86400) "valid";
                  DEL (REDIS_REFRESH_KEY old_token)] /\
    (token_source w (tokens_drawn w) <> old_token ->
     record_of w' (REDIS_REFRESH_KEY (token_source w (tokens_drawn w))) =
       Some {| value := "valid";
               expire_at :=
                 Some (clock w + REFRESH_TOKEN_EXPIRE_DAYS * 86400) |}).
Proof.
  intros Hr Hfit.
  eexists. split; [by apply rotate_refresh_token_run|].
  unfold redis_delete, rotation_written, call. simpl.
  split; [by rewrite <- app_assoc|].
  intros Hne. unfold record_of, Redis.lookup. simpl.
  rewrite lookup_delete_ne
    by (intros E; by apply refresh_key_inj in E).
  by rewrite lookup_insert_eq, fresh_record_live.
Qed.

End Rotation.

(** ** Password reset *)

Lemma get_email_verification_token_present (w : world) (r : redis)
    (token : string) :
  redis_client w = Some r ->
  get_email_verification_token token w =
    (Return (stored w (REDIS_VERIFY_KEY token)),
     emit (GET (REDIS_VERIFY_KEY token)) w).
Proof.
  intros Hr.
  unfold get_email_verification_token, bind, redis_client_truthy.
  rewrite Hr. unfold redis_get. rewrite (call_present _ _ _ _ Hr).
  unfold Redis.get. cbn [fst snd]. rewrite (emit_present _ _ _ Hr).
  unfold stored. by rewrite (record_of_present _ _ _ Hr).
Qed.

Lemma get_email_verification_token_absent (w : world) (token : string) :
  redis_client w = None ->
  get_email_verification_token token w = (Return None, w).
Proof.
  intros Hr.
  unfold get_email_verification_token, bind, redis_client_truthy.
  by rewrite Hr.
Qed.

Lemma store_email_verification_token_returns (w : world)
    (email token : string) :
  fst (store_email_verification_token email token w) = Return tt.
Proof.
  unfold store_email_verification_token, bind, redis_client_truthy.
  destruct (redis_client w) as [r|] eqn:Hr; [|done].
  unfold redis_setex. rewrite (call_present _ _ _ _ Hr).
  by rewrite setex_day.
Qed.

(** Issuance: with a store, [forgot_password] binds the token it draws to
    the email for 86400 seconds. *)
Lemma forgot_password_issues (w : world) (r : redis) (email : string) :
  redis_client w = Some r ->
  record_of (snd (forgot_password email w))
    (REDIS_VERIFY_KEY (token_source w (tokens_drawn w))) =
    Some {| value := email; expire_at := Some (clock w + 86400) |}.
Proof.
  intros Hr. destruct w as [now c d src drawn tr]. simpl in Hr. subst c.
  unfold forgot_password, bind, generate_verification_token, token_urlsafe,
    store_email_verification_token, redis_client_truthy, redis_setex, call,
    send_email_background.
  unfold bind. cbn -[Redis.setex]. rewrite setex_day.
  simpl. unfold record_of, Redis.lookup, Redis.live. simpl.
  rewrite lookup_insert_eq. simpl.
  by assert ((now <? now + 86400) = true) as ->
    by (apply Z.ltb_lt; lia).
Qed.

(** C9. [forgot_password] answers every email, in every world, with the
    same message: the answers to an email that belongs to a user and to one
    that does not are equal. *)
Theorem forgot_password_same_response (w1 w2 : world)
    (email1 email2 : string) :
  fst (forgot_password email1 w1) =
    Return {| message := "Password reset email sent." |} /\
  fst (forgot_password email2 w2) = fst (forgot_password email1 w1).
Proof.
  assert (H : forall (w : world) (email : string),
             fst (forgot_password email w) =
               Return {| message := "Password reset email sent." |}).
  { intros w email.
    unfold forgot_password, bind, generate_verification_token, token_urlsafe,
      send_email_background.
    pose proof (store_email_verification_token_returns
                  (set_tokens_drawn (S (tokens_drawn w)) w) email
                  (token_source w (tokens_drawn w))) as Hs.
    destruct (store_email_verification_token email
                (token_source w (tokens_drawn w))
                (set_tokens_drawn (S (tokens_drawn w)) w)) as [a w'].
    simpl in Hs. by subst a. }
  by rewrite !H.
Qed.

Section ResetPassword.

Variable pwd_context_hash : string -> string.

Lemma reset_password_not_found (w : world) (token new_password : string) :
  fst (get_email_verification_token token w) = Return None \/
  fst (get_email_verification_token token w) = Return (Some "") ->
  reset_password pwd_context_hash token new_password w =
    (Raise (HTTPException 400 "Invalid or expired token."),
     snd (get_email_verification_token token w)).
Proof.
  unfold reset_password, bind.
  destruct (get_email_verification_token token w) as [a w'].
  simpl. by intros [-> | ->].
Qed.

(** The run of [reset_password] on a token whose record is present, when
    the database accepts the statement and the commit. *)
Lemma reset_password_found (w : world) (r : redis)
    (token new_password email : string) :
  redis_client w = Some r ->
  stored w (REDIS_VERIFY_KEY token) = Some email ->
  email <> "" ->
  execute_ok (conn w) = true ->
  commit_ok (conn w) = true ->
  exists w' : world,
    reset_password pwd_context_hash token new_password w =
      (Return {| message := "Password reset successful." |}, w') /\
    users (conn w') =
      foldl apply_update (users (conn w))
        (pending (conn w) ++ [(pwd_context_hash new_password, email)]) /\
    pending (conn w') = [] /\
    redis_client w' =
      Some (Redis.with_keyspace
              (delete (REDIS_VERIFY_KEY token) (keyspace r)) r) /\
    trace w' =
      trace w ++ [GET (REDIS_VERIFY_KEY token);
                  SQL_UPDATE_PASSWORD (pwd_context_hash new_password) email;
                  COMMIT;
                  DEL (REDIS_VERIFY_KEY token)] /\
    clock w' = clock w /\
    token_source w' = token_source w /\
    tokens_drawn w' = tokens_drawn w.
Proof.
  intros Hr Hs He Hx Hc. unfold reset_password, bind.
  rewrite (get_email_verification_token_present _ _ _ Hr), Hs.
  destruct email as [|a email]; [done|].
  unfold cursor_execute, conn_commit, redis_delete, call. simpl.
  rewrite Hx. simpl. rewrite Hc. simpl. rewrite Hr.
  eexists. split; [reflexivity|]. simpl.
  repeat split; try done.
  by rewrite <- !app_assoc.
Qed.

(** The run of [reset_password] on a token whose record is present, when
    the database refuses the statement or the commit. *)
Lemma reset_password_database_failure (w : world) (r : redis)
    (token new_password email : string) :
  redis_client w = Some r ->
  stored w (REDIS_VERIFY_KEY token) = Some email ->
  email <> "" ->
  execute_ok (conn w) && commit_ok (conn w) = false ->
  exists w' : world,
    reset_password pwd_context_hash token new_password w =
      (Raise OperationalError, w') /\
    users (conn w') = users (conn w) /\
    redis_client w' = Some r /\
    clock w' = clock w /\
    (trace w' = trace w ++ [GET (REDIS_VERIFY_KEY token)] \/
     trace w' =
       trace w ++ [GET (REDIS_VERIFY_KEY token);
                   SQL_UPDATE_PASSWORD (pwd_context_hash new_password)
                     email]).
Proof.
  intros Hr Hs He Hf. unfold reset_password, bind.
  rewrite (get_email_verification_token_present _ _ _ Hr), Hs.
  destruct email as [|a email]; [done|].
  unfold cursor_execute, conn_commit. simpl.
  destruct (execute_ok (conn w)) eqn:Hx; simpl.
  - simpl in Hf. rewrite Hf. simpl.
    eexists. split; [reflexivity|]. simpl.
    repeat split; try done. right. by rewrite <- !app_assoc.
  - eexists. split; [reflexivity|]. simpl.
    repeat split; try done. by left.
Qed.

End ResetPassword.

(** ** Invariants of handlers *)

Section Triples.

Variable I : world -> Prop.

Lemma triple_ret {A} (P : world -> Prop) (a : A) (Q : A -> world -> Prop) :
  (forall w, P w -> Q a w) -> triple I P (ret a) Q.
Proof. intros H w Hw. by apply H. Qed.

Lemma triple_raise {A} (P : world -> Prop) (e : exn)
    (Q : A -> world -> Prop) :
  (forall w, P w -> I w) -> triple I P (raise e) Q.
Proof. intros H w Hw. by apply H. Qed.

Lemma triple_bind {A B} (P : world -> Prop) (m : M A) (k : A -> M B)
    (R : A -> world -> Prop) (Q : B -> world -> Prop) :
  triple I P m R ->
  (forall a : A, triple I (R a) (k a) Q) ->
  triple I P (bind m k) Q.
Proof.
  intros Hm Hk w Hw. unfold bind. specialize (Hm w Hw).
  destruct (m w) as [[a|e] w']; [|exact Hm].
  by apply Hk.
Qed.

Lemma triple_pure {A} (phi : Prop) (P : world -> Prop) (m : M A)
    (Q : A -> world -> Prop) :
  (phi -> triple I P m Q) -> triple I (fun w => phi /\ P w) m Q.
Proof. intros H w [Hphi Hw]. by apply H. Qed.

Lemma keeps_bind {A B} (m : M A) (k : A -> M B) :
  keeps I m -> (forall a : A, keeps I (k a)) -> keeps I (bind m k).
Proof. intros Hm Hk. by apply (triple_bind I m k (fun _ => I)). Qed.

Lemma keeps_ret {A} (a : A) : keeps I (ret a).
Proof. by apply triple_ret. Qed.

Lemma keeps_raise {A} (e : exn) : keeps I (raise (A := A) e).
Proof. by apply triple_raise. Qed.

Lemma keeps_snd {A} (m : M A) (w : world) : keeps I m -> I w -> I (snd (m w)).
Proof.
  intros Hm Hw. specialize (Hm w Hw). by destruct (m w) as [[a|e] w'].
Qed.

End Triples.

(** ** A consumed verification token stays consumed *)

Section Unissued.

Variable V : string.

Lemma keeps_unissued_call {A} (e : effect)
    (cmd : Z -> redis -> result A * redis) :
  (forall (now : Z) (r : redis),
      keyspace r !! REDIS_VERIFY_KEY V = None ->
      keyspace (snd (cmd now r)) !! REDIS_VERIFY_KEY V = None) ->
  keeps (unissued V) (call e cmd).
Proof.
  intros Hcmd w [Hk Ht]. unfold call.
  destruct (redis_client w) as [r|] eqn:Hr.
  - specialize (Hcmd (clock w) r (Hk r eq_refl)).
    destruct (cmd (clock w) r) as [[a|x] r']; simpl in *;
      (split; [by intros r0 [= <-] | exact Ht]).
  - split; [|exact Ht]. intros r0. by rewrite Hr.
Qed.

Lemma keeps_unissued_setex (k : string) (seconds : Z) (v : string) :
  k <> REDIS_VERIFY_KEY V -> keeps (unissued V) (redis_setex k seconds v).
Proof.
  intros Hne. apply keeps_unissued_call. intros now r H.
  unfold Redis.setex. destruct (_ || _); simpl.
  - exact H.
  - by rewrite lookup_insert_ne.
Qed.

Lemma keeps_unissued_get (k : string) : keeps (unissued V) (redis_get k).
Proof. apply keeps_unissued_call. by intros now r H. Qed.

Lemma keeps_unissued_delete (k : string) :
  keeps (unissued V) (redis_delete k).
Proof.
  apply keeps_unissued_call. intros now r H. simpl.
  rewrite lookup_delete. by case_decide.
Qed.

Lemma keeps_unissued_incr (k : string) :
  k <> REDIS_VERIFY_KEY V -> keeps (unissued V) (redis_incr k).
Proof.
  intros Hne. apply keeps_unissued_call. intros now r H.
  unfold Redis.incr.
  destruct (Redis.lookup now r k) as [e|]; simpl.
  - destruct (Redis.integer_of (value e)) as [n|]; [|exact H].
    destruct ((- 2 ^ 63 <=? n) && (n <? 2 ^ 63 - 1)); simpl; [|exact H].
    by rewrite lookup_insert_ne.
  - by rewrite lookup_insert_ne.
Qed.

Lemma keeps_unissued_expire (k : string) (seconds : Z) :
  k <> REDIS_VERIFY_KEY V -> keeps (unissued V) (redis_expire k seconds).
Proof.
  intros Hne. apply keeps_unissued_call. intros now r H.
  unfold Redis.expire.
  destruct (Redis.lookup now r k) as [e|]; [|exact H].
  destruct (seconds <=? 0); simpl.
  - by rewrite lookup_delete_ne.
  - by rewrite lookup_insert_ne.
Qed.

Lemma keeps_unissued_truthy : keeps (unissued V) redis_client_truthy.
Proof. by intros w Hw. Qed.

Lemma keeps_unissued_execute (h email : string) :
  keeps (unissued V) (cursor_execute h email).
Proof.
  intros w Hw. unfold cursor_execute.
  by destruct (execute_ok (conn w)).
Qed.

Lemma keeps_unissued_commit : keeps (unissued V) conn_commit.
Proof.
  intros w Hw. unfold conn_commit.
  by destruct (commit_ok (conn w)).
Qed.

Lemma keeps_unissued_send (email subject body : string) :
  keeps (unissued V) (send_email_background email subject body).
Proof. by intros w Hw. Qed.

Lemma token_urlsafe_unissued :
  triple (unissued V) (unissued V) token_urlsafe
    (fun t w => t <> V /\ unissued V w).
Proof.
  intros w [Hk Ht]. simpl. split; [by apply Ht|].
  split; [exact Hk|]. intros n Hn. simpl in Hn. apply Ht. lia.
Qed.

Lemma keeps_unissued_forgot_password (email : string) :
  keeps (unissued V) (forgot_password email).
Proof.
  unfold forgot_password, generate_verification_token.
  eapply triple_bind; [apply token_urlsafe_unissued|].
  intros t. apply triple_pure. intros Hne.
  apply keeps_bind.
  - unfold store_email_verification_token.
    apply keeps_bind; [apply keeps_unissued_truthy|].
    intros [|]; [|apply keeps_ret].
    apply keeps_bind; [|intros; apply keeps_ret].
    apply keeps_unissued_setex. intros E. by apply verify_key_inj in E.
  - intros _. apply keeps_bind; [apply keeps_unissued_send|].
    intros _. apply keeps_ret.
Qed.

Lemma keeps_unissued_reset_password (h : string -> string)
    (token new_password : string) :
  keeps (unissued V) (reset_password h token new_password).
Proof.
  unfold reset_password.
  apply keeps_bind.
  - unfold get_email_verification_token.
    apply keeps_bind; [apply keeps_unissued_truthy|].
    intros [|]; [apply keeps_unissued_get | apply keeps_ret].
  - intros [[|a email]|]; cbn beta iota zeta;
      [by apply keeps_raise | | by apply keeps_raise].
    apply keeps_bind; [apply keeps_unissued_execute|]. intros _.
    apply keeps_bind; [apply keeps_unissued_commit|]. intros _.
    apply keeps_bind; [apply keeps_unissued_delete|]. intros _.
    apply keeps_ret.
Qed.

Lemma keeps_unissued_revoke_token (token : string) :
  keeps (unissued V) (revoke_token token).
Proof.
  unfold revoke_token.
  apply keeps_bind; [|intros; apply keeps_ret].
  apply keeps_unissued_setex, refresh_verify_key.
Qed.

Lemma keeps_unissued_rotate (days : Z) (old_token : string) :
  keeps (unissued V) (rotate_refresh_token days old_token).
Proof.
  unfold rotate_refresh_token.
  eapply triple_bind; [apply token_urlsafe_unissued|].
  intros t. apply triple_pure. intros _.
  apply keeps_bind; [apply keeps_unissued_setex, refresh_verify_key|].
  intros _. apply keeps_bind; [apply keeps_unissued_delete|].
  intros _. apply keeps_ret.
Qed.

Lemma keeps_unissued_middleware {A} (user_ip : string) (call_next : M A) :
  keeps (unissued V) call_next ->
  keeps (unissued V) (rate_limit_middleware user_ip call_next).
Proof.
  intros Hnext. unfold rate_limit_middleware.
  apply keeps_bind; [apply keeps_unissued_truthy|].
  intros c. apply keeps_bind; [|intros _; exact Hnext].
  destruct c; [|apply keeps_ret].
  apply keeps_bind; [apply keeps_unissued_get|].
  intros request_count. apply keeps_bind.
  - unfold over_limit. destruct request_count as [[|a s]|];
      [by apply keeps_ret | | by apply keeps_ret].
    destruct (py_int (String a s)); [apply keeps_ret | apply keeps_raise].
  - intros [|]; [apply keeps_raise|].
    apply keeps_bind;
      [apply keeps_unissued_incr, rate_limit_verify_key|].
    intros _. apply keeps_bind;
      [apply keeps_unissued_expire, rate_limit_verify_key|].
    intros _. apply keeps_ret.
Qed.

Lemma unissued_step (days : Z) (h : string -> string) (w : world)
    (ev : event) :
  unissued V w -> unissued V (step days h w ev).
Proof.
  intros Hw. destruct ev as [user_ip req | old_token | seconds]; simpl.
  - apply keeps_snd; [|exact Hw]. apply keeps_unissued_middleware.
    destruct req; simpl.
    + apply keeps_unissued_forgot_password.
    + apply keeps_unissued_reset_password.
    + apply keeps_unissued_revoke_token.
  - apply keeps_snd; [|exact Hw]. apply keeps_unissued_rotate.
  - exact Hw.
Qed.

Lemma unissued_run (days : Z) (h : string -> string) (evs : list event)
    (w : world) :
  unissued V w -> unissued V (run days h evs w).
Proof.
  revert w. induction evs as [|ev evs IH]; intros w Hw; simpl.
  - exact Hw.
  - apply IH. by apply unissued_step.
Qed.

Lemma unissued_reset_password_fails (h : string -> string) (w : world)
    (new_password : string) :
  unissued V w ->
  fst (reset_password h V new_password w) =
    Raise (HTTPException 400 "Invalid or expired token.").
Proof.
  intros [Hk _]. rewrite reset_password_not_found; [done|].
  left. destruct (redis_client w) as [r|] eqn:Hr.
  - rewrite (get_email_verification_token_present _ _ _ Hr). simpl.
    unfold stored. rewrite (record_of_present _ _ _ Hr).
    unfold Redis.lookup. by rewrite (Hk r eq_refl).
  - by rewrite (get_email_verification_token_absent _ _ Hr).
Qed.

End Unissued.

Section Consumption.

Variable REFRESH_TOKEN_EXPIRE_DAYS : Z.
Variable pwd_context_hash : string -> string.

(** C2. Let the record of the verification token [V] be present, bound to
    the identity [email], with a database that accepts the update.  The
    first [reset_password] with [V] succeeds and sets the password of
    exactly that identity; after it, whatever requests, rotations and
    delays follow, every [reset_password] with [V] fails with the 400
    error (the entropy source not producing [V] a second time). *)
Theorem reset_password_single_use (w : world) (r : redis)
    (V email new_password : string) :
  redis_client w = Some r ->
  stored w (REDIS_VERIFY_KEY V) = Some email ->
  email <> "" ->
  execute_ok (conn w) = true ->
  commit_ok (conn w) = true ->
  pending (conn w) = [] ->
  (forall n : nat, (tokens_drawn w <= n)%nat -> token_source w n <> V) ->
  exists w1 : world,
    reset_password pwd_context_hash V new_password w =
      (Return {| message := "Password reset successful." |}, w1) /\
    users (conn w1) =
      alter (fun _ => pwd_context_hash new_password) email
        (users (conn w)) /\
    stored w1 (REDIS_VERIFY_KEY V) = None /\
    forall (evs : list event) (password : string),
      fst (reset_password pwd_context_hash V password
             (run REFRESH_TOKEN_EXPIRE_DAYS pwd_context_hash evs w1)) =
        Raise (HTTPException 400 "Invalid or expired token.").
Proof.
  intros Hr Hs He Hx Hc Hp Ht.
  destruct (reset_password_found pwd_context_hash w r V new_password email
              Hr Hs He Hx Hc)
    as (w1 & E & Hu & _ & Hr1 & _ & _ & Hsrc & Hdrawn).
  assert (Hun : unissued V w1).
  { split.
    - intros r1. rewrite Hr1. intros [= <-]. simpl.
      apply lookup_delete_eq.
    - intros n Hn. rewrite Hsrc. apply Ht. by rewrite <- Hdrawn. }
  exists w1. split; [exact E|]. split.
  { rewrite Hu, Hp. reflexivity. }
  split.
  { unfold stored, record_of, Redis.lookup. rewrite Hr1. simpl.
    by rewrite lookup_delete_eq. }
  intros evs password.
  apply unissued_reset_password_fails. by apply unissued_run.
Qed.

(** C10. The error paths of [reset_password] leave the state alone.
    (1) When the lookup yields no identity, the handler raises the 400
    error and the only thing it has done is the lookup: the database, the
    store and the clock are as before, and no statement, commit or
    deletion was issued.  (2) When the token is bound to an identity and
    the database accepts the update, the effects are, in this order, the
    lookup, the update, the commit and only then the deletion of the
    record.  (3) When the database refuses the statement or the commit, the
    handler raises, the user table and the store are unchanged and no
    deletion was issued; the token is still there and a later
    [reset_password] with it, the database working again, succeeds. *)
Theorem reset_password_error_paths (w : world) (token new_password : string) :
  (fst (get_email_verification_token token w) = Return None \/
   fst (get_email_verification_token token w) = Return (Some "") ->
   reset_password pwd_context_hash token new_password w =
     (Raise (HTTPException 400 "Invalid or expired token."), w) \/
   reset_password pwd_context_hash token new_password w =
     (Raise (HTTPException 400 "Invalid or expired token."),
      emit (GET (REDIS_VERIFY_KEY token)) w)) /\
  (forall (r : redis) (email : string),
      redis_client w = Some r ->
      stored w (REDIS_VERIFY_KEY token) = Some email ->
      email <> "" ->
      execute_ok (conn w) = true ->
      commit_ok (conn w) = true ->
      exists w' : world,
        reset_password pwd_context_hash token new_password w =
          (Return {| message := "Password reset successful." |}, w') /\
        trace w' =
          trace w ++ [GET (REDIS_VERIFY_KEY token);
                      SQL_UPDATE_PASSWORD
                        (pwd_context_hash new_password) email;
                      COMMIT;
                      DEL (REDIS_VERIFY_KEY token)]) /\
  (forall (r : redis) (email : string),
      redis_client w = Some r ->
      stored w (REDIS_VERIFY_KEY token) = Some email ->
      email <> "" ->
      execute_ok (conn w) && commit_ok (conn w) = false ->
      exists w' : world,
        reset_password pwd_context_hash token new_password w =
          (Raise OperationalError, w') /\
        users (conn w') = users (conn w) /\
        redis_client w' = redis_client w /\
        stored w' (REDIS_VERIFY_KEY token) = Some email /\
        (trace w' = trace w ++ [GET (REDIS_VERIFY_KEY token)] \/
         trace w' =
           trace w ++ [GET (REDIS_VERIFY_KEY token);
                       SQL_UPDATE_PASSWORD
                         (pwd_context_hash new_password) email]) /\
        forall password : string,
          fst (reset_password pwd_context_hash token password
                 (set_conn (repaired (conn w')) w')) =
            Return {| message := "Password reset successful." |}).
Proof.
  split; [|split].
  - intros Hno.
    rewrite (reset_password_not_found pwd_context_hash _ _ _ Hno).
    destruct (redis_client w) as [r|] eqn:Hr.
    + rewrite (get_email_verification_token_present _ _ _ Hr). by right.
    + rewrite (get_email_verification_token_absent _ _ Hr). by left.
  - intros r email Hr Hs He Hx Hc.
    destruct (reset_password_found pwd_context_hash w r token new_password
                email Hr Hs He Hx Hc) as (w' & E & _ & _ & _ & Ht & _).
    by exists w'.
  - intros r email Hr Hs He Hf.
    destruct (reset_password_database_failure pwd_context_hash w r token
                new_password email Hr Hs He Hf)
      as (w' & E & Hu & Hr' & Hcl & Ht).
    assert (Hs' : stored w' (REDIS_VERIFY_KEY token) = Some email).
    { unfold stored, record_of in *. rewrite Hr', Hcl.
      by rewrite Hr in Hs. }
    exists w'. split; [exact E|]. split; [exact Hu|].
    split; [by rewrite Hr', Hr|]. split; [exact Hs'|].
    split; [exact Ht|].
    intros password.
    destruct (reset_password_found pwd_context_hash
                (set_conn (repaired (conn w')) w') r token password email)
      as (w2 & E2 & _); try done.
    by rewrite E2.
Qed.

End Consumption.

(** ** Rate limiting *)

Lemma over_limit_count (n : Z) : over_limit (Some (py_str n)) = ret (100 <? n).
Proof.
  unfold over_limit.
  pose proof (py_str_nonempty n) as Hne. pose proof (py_int_str n) as P.
  destruct (py_str n); [done|]. by rewrite P.
Qed.

Section RateLimit.

Variable user_ip : string.

Lemma counted_zero (w : world) :
  stored w (REDIS_RATE_LIMIT_KEY user_ip) = None -> counted w user_ip 0.
Proof. intros H. by left. Qed.

(** A request that finds fewer than 101 counted requests is counted and
    handed on. *)
Lemma rate_limit_admits (w : world) (r : redis) (n : Z) :
  redis_client w = Some r ->
  counted w user_ip n ->
  n <= 100 ->
  forall (A : Type) (call_next : M A),
    rate_limit_middleware user_ip call_next w =
      call_next (admitted user_ip (n + 1) w r).
Proof.
  intros Hr Hn Hle A call_next.
  unfold rate_limit_middleware, bind, redis_client_truthy. rewrite Hr.
  unfold redis_get. rewrite (call_present _ _ _ _ Hr).
  unfold Redis.get. cbn [fst snd]. rewrite (emit_present _ _ _ Hr).
  unfold counted, stored in Hn. rewrite (record_of_present _ _ _ Hr) in Hn.
  f_equal.
  destruct Hn as [[-> Hn] | [Hpos Hn]].
  - destruct (Redis.lookup (clock w) r (REDIS_RATE_LIMIT_KEY user_ip))
      as [e|] eqn:Hl; [done|].
    simpl. unfold redis_incr, redis_expire, call. simpl. rewrite Hr.
    unfold Redis.incr. rewrite Hl. simpl.
    unfold Redis.expire, Redis.lookup. simpl. rewrite lookup_insert_eq.
    simpl. unfold admitted, Redis.with_keyspace. simpl.
    by rewrite insert_insert_eq.
  - destruct (Redis.lookup (clock w) r (REDIS_RATE_LIMIT_KEY user_ip))
      as [e|] eqn:Hl; [|done].
    simpl in Hn. injection Hn as Hv.
    cbn [fmap option_fmap option_map]. rewrite Hv, over_limit_count.
    assert ((100 <? n) = false) as -> by (apply Z.ltb_ge; lia).
    unfold ret at 1. cbn beta iota.
    unfold redis_incr, redis_expire, call. simpl. rewrite Hr.
    unfold Redis.incr. rewrite Hl, Hv, integer_of_str.
    assert ((- 2 ^ 63 <=? n) && (n <? 2 ^ 63 - 1) = true) as ->.
    { apply andb_true_iff. split; [apply Z.leb_le | apply Z.ltb_lt]; lia. }
    simpl. unfold Redis.expire, Redis.lookup. simpl.
    rewrite lookup_insert_eq.
    assert (Redis.live (clock w)
              {| value := py_str (n + 1); expire_at := expire_at e |} = true)
      as ->.
    { unfold Redis.lookup in Hl.
      destruct (keyspace r !! REDIS_RATE_LIMIT_KEY user_ip) as [e0|];
        [|done].
      destruct (Redis.live (clock w) e0) eqn:Hlive; [|done].
      injection Hl as ->. exact Hlive. }
    simpl. unfold admitted, Redis.with_keyspace. simpl.
    by rewrite insert_insert_eq.
Qed.

(** A request that finds more than 100 counted requests is refused, and
    nothing but the lookup has happened. *)
Lemma rate_limit_rejects (w : world) (r : redis) (n : Z) :
  redis_client w = Some r ->
  counted w user_ip n ->
  100 < n ->
  forall (A : Type) (call_next : M A),
    rate_limit_middleware user_ip call_next w =
      (Raise (HTTPException 429 "Too many requests. Try again later."),
       emit (GET (REDIS_RATE_LIMIT_KEY user_ip)) w).
Proof.
  intros Hr Hn Hlt A call_next.
  unfold rate_limit_middleware, bind, redis_client_truthy. rewrite Hr.
  unfold redis_get. rewrite (call_present _ _ _ _ Hr).
  unfold Redis.get. cbn [fst snd]. rewrite (emit_present _ _ _ Hr).
  unfold counted, stored in Hn. rewrite (record_of_present _ _ _ Hr) in Hn.
  destruct Hn as [[-> Hn] | [Hpos Hn]]; [lia|].
  rewrite Hn, over_limit_count.
  assert ((100 <? n) = true) as -> by (apply Z.ltb_lt; lia).
  done.
Qed.

Lemma admitted_counted (w : world) (r : redis) (n : Z) :
  0 < n -> counted (admitted user_ip n w r) user_ip n.
Proof.
  intros Hn. right. split; [exact Hn|].
  unfold stored, record_of, admitted, Redis.lookup, Redis.live. simpl.
  rewrite lookup_insert_eq. simpl.
  by assert ((clock w <? clock w + 60) = true) as -> by (apply Z.ltb_lt; lia).
Qed.

Lemma admitted_record (w : world) (r : redis) (n : Z) :
  record_of (admitted user_ip n w r) (REDIS_RATE_LIMIT_KEY user_ip) =
    Some {| value := py_str n; expire_at := Some (clock w + 60) |}.
Proof.
  unfold record_of, admitted, Redis.lookup, Redis.live. simpl.
  rewrite lookup_insert_eq. simpl.
  by assert ((clock w <? clock w + 60) = true) as -> by (apply Z.ltb_lt; lia).
Qed.

End RateLimit.

Section Bursts.

Variable user_ip : string.
Variable resp : JSON.
Variable gap : nat.
Hypothesis within_window : Z.of_nat gap < 60.

Lemma counted_later (w : world) (r : redis) (n : Z) :
  0 < n ->
  counted
    (set_clock (clock (admitted user_ip n w r) + Z.of_nat gap)
       (admitted user_ip n w r))
    user_ip n.
Proof.
  intros Hn. right. split; [exact Hn|].
  unfold stored, record_of, admitted, Redis.lookup, Redis.live. simpl.
  rewrite lookup_insert_eq. simpl.
  by assert ((clock w + Z.of_nat gap <? clock w + 60) = true) as ->
    by (apply Z.ltb_lt; lia).
Qed.

(** Requests that keep the counter at or below 101 are all admitted. *)
Lemma burst_admits (n : nat) :
  forall (w : world) (r : redis) (n0 : Z),
    redis_client w = Some r ->
    counted w user_ip n0 ->
    n0 + Z.of_nat n <= 101 ->
    exists (w' : world) (r' : redis),
      burst n gap user_ip resp w = (repeat (Return resp) n, w') /\
      redis_client w' = Some r' /\
      counted w' user_ip (n0 + Z.of_nat n).
Proof.
  induction n as [|n IH]; intros w r n0 Hr Hc Hle.
  - exists w, r. simpl. rewrite Z.add_0_r. by repeat split.
  - assert (0 <= n0) as Hn0 by (destruct Hc as [[-> _]|[? _]]; lia).
    cbn [burst].
    rewrite (rate_limit_admits user_ip w r n0 Hr Hc) by lia.
    unfold ret at 1.
    destruct (IH (set_clock (clock (admitted user_ip (n0 + 1) w r)
                             + Z.of_nat gap)
                    (admitted user_ip (n0 + 1) w r))
                (Redis.with_keyspace
                   (<[REDIS_RATE_LIMIT_KEY user_ip :=
                        {| value := py_str (n0 + 1);
                           expire_at := Some (clock w + 60) |}]>
                      (keyspace r)) r)
                (n0 + 1))
      as (w' & r' & E & Hr' & Hc').
    + reflexivity.
    + apply counted_later. lia.
    + lia.
    + rewrite E. exists w', r'. split; [reflexivity|]. split; [exact Hr'|].
      by replace (n0 + Z.of_nat (S n)) with (n0 + 1 + Z.of_nat n) by lia.
Qed.

Lemma burst_add (n m : nat) (w : world) :
  burst (n + m) gap user_ip resp w =
    (fst (burst n gap user_ip resp w) ++
       fst (burst m gap user_ip resp (snd (burst n gap user_ip resp w))),
     snd (burst m gap user_ip resp (snd (burst n gap user_ip resp w)))).
Proof.
  revert w. induction n as [|n IH]; intros w.
  - simpl. by destruct (burst m gap user_ip resp w).
  - cbn [Nat.add burst].
    destruct (rate_limit_middleware user_ip (ret resp) w) as [a w1].
    rewrite IH.
    by destruct (burst n gap user_ip resp
                   (set_clock (clock w1 + Z.of_nat gap) w1)).
Qed.

(** What the limiter does to a client that starts with no counter and sends
    102 requests less than 60 seconds apart: the first 101 are admitted
    and the 102nd is refused. *)
Lemma burst_102 (w : world) (r : redis) :
  redis_client w = Some r ->
  stored w (REDIS_RATE_LIMIT_KEY user_ip) = None ->
  fst (burst 102 gap user_ip resp w) =
    repeat (Return resp) 101 ++
      [Raise (HTTPException 429 "Too many requests. Try again later.")].
Proof.
  intros Hr Hs. change 102%nat with (101 + 1)%nat. rewrite burst_add.
  destruct (burst_admits 101 w r 0 Hr (counted_zero _ _ Hs))
    as (w' & r' & E & Hr' & Hc'); [lia|].
  rewrite E. cbn [fst snd burst].
  rewrite (rate_limit_rejects user_ip w' r' _ Hr' Hc') by lia.
  reflexivity.
Qed.

End Bursts.

(** *** The counters stay at or below 101 *)

Section Bounded.

Lemma keeps_bounded_call {A} (e : effect)
    (cmd : Z -> redis -> result A * redis) :
  (forall (now : Z) (r : redis) (user_ip : string),
      keyspace (snd (cmd now r)) !! REDIS_RATE_LIMIT_KEY user_ip = None \/
      keyspace (snd (cmd now r)) !! REDIS_RATE_LIMIT_KEY user_ip =
        keyspace r !! REDIS_RATE_LIMIT_KEY user_ip) ->
  keeps bounded_counters (call e cmd).
Proof.
  intros Hcmd w Hw. unfold call.
  destruct (redis_client w) as [r|] eqn:Hr.
  - assert (bounded_counters (set_redis_client (Some (snd (cmd (clock w) r)))
                       (emit e w))) as Hb.
    { intros r' user_ip e' [= <-] He'.
      destruct (Hcmd (clock w) r user_ip) as [H | H];
        rewrite H in He'; [done|].
      by apply (Hw r user_ip e'). }
    by destruct (cmd (clock w) r) as [[a|x] r'].
  - exact Hw.
Qed.

Lemma keeps_bounded_setex (k : string) (seconds : Z) (v : string) :
  (forall user_ip, k <> REDIS_RATE_LIMIT_KEY user_ip) ->
  keeps bounded_counters (redis_setex k seconds v).
Proof.
  intros Hne. apply keeps_bounded_call. intros now r user_ip. right.
  unfold Redis.setex. destruct (_ || _); simpl.
  - done.
  - by rewrite lookup_insert_ne.
Qed.

Lemma keeps_bounded_get (k : string) : keeps bounded_counters (redis_get k).
Proof. apply keeps_bounded_call. intros now r user_ip. by right. Qed.

Lemma keeps_bounded_delete (k : string) :
  keeps bounded_counters (redis_delete k).
Proof.
  apply keeps_bounded_call. intros now r user_ip. simpl.
  rewrite lookup_delete. case_decide; [by left | by right].
Qed.

Lemma keeps_bounded_local {A} (m : M A) :
  (forall w, redis_client (snd (m w)) = redis_client w) ->
  keeps bounded_counters m.
Proof.
  intros H w Hw. specialize (H w).
  assert (bounded_counters (snd (m w))) as Hb.
  { intros r user_ip e Hr. rewrite H in Hr. by apply Hw. }
  by destruct (m w) as [[a|x] w'].
Qed.

Lemma keeps_bounded_token_urlsafe : keeps bounded_counters token_urlsafe.
Proof. by apply keeps_bounded_local. Qed.

Lemma keeps_bounded_forgot_password (email : string) :
  keeps bounded_counters (forgot_password email).
Proof.
  unfold forgot_password, generate_verification_token.
  apply keeps_bind; [apply keeps_bounded_token_urlsafe|]. intros t.
  apply keeps_bind.
  - unfold store_email_verification_token.
    apply keeps_bind; [by apply keeps_bounded_local|].
    intros [|]; [|apply keeps_ret].
    apply keeps_bind; [|intros; apply keeps_ret].
    apply keeps_bounded_setex. intros user_ip E.
    by apply (rate_limit_verify_key user_ip t).
  - intros _. apply keeps_bind; [by apply keeps_bounded_local|].
    intros _. apply keeps_ret.
Qed.

Lemma keeps_bounded_reset_password (h : string -> string)
    (token new_password : string) :
  keeps bounded_counters (reset_password h token new_password).
Proof.
  unfold reset_password.
  apply keeps_bind.
  - unfold get_email_verification_token.
    apply keeps_bind; [by apply keeps_bounded_local|].
    intros [|]; [apply keeps_bounded_get | apply keeps_ret].
  - intros [[|a email]|]; cbn beta iota zeta;
      [by apply keeps_raise | | by apply keeps_raise].
    apply keeps_bind.
    { apply keeps_bounded_local. intros w. unfold cursor_execute.
      by destruct (execute_ok (conn w)). }
    intros _. apply keeps_bind.
    { apply keeps_bounded_local. intros w. unfold conn_commit.
      by destruct (commit_ok (conn w)). }
    intros _. apply keeps_bind; [apply keeps_bounded_delete|]. intros _.
    apply keeps_ret.
Qed.

Lemma keeps_bounded_revoke_token (token : string) :
  keeps bounded_counters (revoke_token token).
Proof.
  unfold revoke_token.
  apply keeps_bind; [|intros; apply keeps_ret].
  apply keeps_bounded_setex. intros user_ip E.
  by apply (rate_limit_refresh_key user_ip token).
Qed.

Lemma keeps_bounded_rotate (days : Z) (old_token : string) :
  keeps bounded_counters (rotate_refresh_token days old_token).
Proof.
  unfold rotate_refresh_token.
  apply keeps_bind; [apply keeps_bounded_token_urlsafe|]. intros t.
  apply keeps_bind.
  { apply keeps_bounded_setex. intros user_ip E.
    by apply (rate_limit_refresh_key user_ip t). }
  intros _. apply keeps_bind; [apply keeps_bounded_delete|].
  intros _. apply keeps_ret.
Qed.

Lemma bounded_admitted (user_ip : string) (n : Z) (w : world) (r : redis) :
  redis_client w = Some r ->
  bounded_counters w ->
  1 <= n <= 101 ->
  bounded_counters (admitted user_ip n w r).
Proof.
  intros Hr Hw Hn r' ip' e [= <-]. simpl.
  rewrite lookup_insert. case_decide as Hk.
  - intros [= <-]. simpl. by exists n.
  - intros He. by apply (Hw r ip' e).
Qed.

(** A live counter holds the number [n] that [bounded_counters] promises. *)
Lemma bounded_counted (user_ip : string) (w : world) (r : redis) :
  redis_client w = Some r ->
  bounded_counters w ->
  exists n : Z, counted w user_ip n /\ 0 <= n <= 101.
Proof.
  intros Hr Hw. unfold counted, stored.
  rewrite (record_of_present _ _ _ Hr). unfold Redis.lookup.
  destruct (keyspace r !! REDIS_RATE_LIMIT_KEY user_ip) as [e|] eqn:He.
  - destruct (Hw r user_ip e Hr He) as (n & Hv & Hn).
    destruct (Redis.live (clock w) e).
    + exists n. split; [|lia]. right. split; [lia|]. simpl. by rewrite Hv.
    + exists 0. split; [by left | lia].
  - exists 0. split; [by left | lia].
Qed.

Lemma keeps_bounded_middleware {A} (user_ip : string) (call_next : M A) :
  keeps bounded_counters call_next ->
  keeps bounded_counters (rate_limit_middleware user_ip call_next).
Proof.
  intros Hnext w Hw.
  destruct (redis_client w) as [r|] eqn:Hr.
  - destruct (bounded_counted user_ip w r Hr Hw) as (n & Hc & Hn).
    destruct (Z.le_gt_cases n 100) as [Hle | Hgt].
    + rewrite (rate_limit_admits user_ip w r n Hr Hc Hle).
      apply Hnext. apply bounded_admitted; [done | done | lia].
    + by rewrite (rate_limit_rejects user_ip w r n Hr Hc Hgt).
  - unfold rate_limit_middleware, bind, redis_client_truthy. rewrite Hr.
    by apply Hnext.
Qed.

(** In every world that the service reaches from one whose counters are
    between 1 and 101, and so from one without counters, the counters are
    between 1 and 101: a counter does reach 101, and goes no further. *)
Lemma bounded_run (days : Z) (h : string -> string) (evs : list event)
    (w : world) :
  bounded_counters w -> bounded_counters (run days h evs w).
Proof.
  revert w. induction evs as [|ev evs IH]; intros w Hw; [exact Hw|].
  simpl. apply IH.
  destruct ev as [user_ip req | old_token | seconds]; simpl.
  - apply keeps_snd; [|exact Hw]. apply keeps_bounded_middleware.
    destruct req; simpl.
    + apply keeps_bounded_forgot_password.
    + apply keeps_bounded_reset_password.
    + apply keeps_bounded_revoke_token.
  - apply keeps_snd; [|exact Hw]. apply keeps_bounded_rotate.
  - exact Hw.
Qed.

End Bounded.

(** C3. The limiter counts before it compares: the client "A", starting with
    no counter, gets its first 101 requests admitted, the 101st included,
    and only the 102nd is refused with the 429 error. *)
Theorem rate_limit_admits_request_101 :
  fst (burst 102 0 "A" OK sample_world) =
    repeat (Return OK) 101 ++
      [Raise (HTTPException 429 "Too many requests. Try again later.")].
Proof. vm_compute. reflexivity. Qed.

(** C4. After the 101 requests of the client "A", none of which was refused,
    the stored counter is 101, above the limit of 100. *)
Theorem rate_limit_counter_reaches_101 :
  fst (burst 101 0 "A" OK sample_world) = repeat (Return OK) 101 /\
  stored (snd (burst 101 0 "A" OK sample_world))
    (REDIS_RATE_LIMIT_KEY "A") = Some "101".
Proof. split; vm_compute; reflexivity. Qed.

(** C6 as the specification words it does not hold: the second request of
    the client "A", 30 seconds after the first, moves the expiry of the
    counter from 60 to 90. *)
Lemma expiry_set_once_fails : ~ expiry_set_once.
Proof.
  intros H.
  specialize (H second_request_world
                (snd (rate_limit_middleware "A" (ret OK) second_request_world))
                "A" OK 60).
  assert (window_expiry
            (snd (rate_limit_middleware "A" (ret OK) second_request_world))
            "A" = Some 90) as E by (vm_compute; reflexivity).
  rewrite H in E; [discriminate | vm_compute; reflexivity |
                   vm_compute; reflexivity].
Qed.

(** C6, amended. Every request that the limiter admits sets the expiry of
    the client's counter to 60 seconds from now, the first request of a
    window and every later one alike; a refused request changes neither the
    counter nor its expiry. *)
Theorem rate_limit_expiry_refreshed (w : world) (r : redis)
    (user_ip : string) (n : Z) :
  redis_client w = Some r ->
  counted w user_ip n ->
  (n <= 100 ->
   exists w' : world,
     (forall (A : Type) (call_next : M A),
         rate_limit_middleware user_ip call_next w = call_next w') /\
     counted w' user_ip (n + 1) /\
     window_expiry w' user_ip = Some (clock w + 60)) /\
  (100 < n ->
   exists w' : world,
     (forall (A : Type) (call_next : M A),
         rate_limit_middleware user_ip call_next w =
           (Raise (HTTPException 429 "Too many requests. Try again later."),
            w')) /\
     counted w' user_ip n /\
     window_expiry w' user_ip = window_expiry w user_ip).
Proof.
  intros Hr Hc. split; intros Hn.
  - exists (admitted user_ip (n + 1) w r). split.
    + intros A call_next. by apply rate_limit_admits.
    + split.
      * apply admitted_counted. destruct Hc as [[-> _]|[? _]]; lia.
      * unfold window_expiry. by rewrite admitted_record.
  - exists (emit (GET (REDIS_RATE_LIMIT_KEY user_ip)) w). split.
    + intros A call_next. by apply rate_limit_rejects with (r := r) (n := n).
    + split; [|done]. exact Hc.
Qed.

(** ** The theorems at sample worlds

    Each theorem above that has hypotheses is applied here to one of the
    sample worlds, where its hypotheses are checked by evaluation. *)

(** Without a store connection the request of the client "A" goes through
    and the password reset is refused. *)
Lemma store_unavailable_open_and_closed_witness :
  redis_client offline_world = None /\
  rate_limit_middleware "A" (ret OK) offline_world =
    (Return OK, offline_world) /\
  reset_password (fun p => p) "Zm9v" "s3cret" offline_world =
    (Raise (HTTPException 400 "Invalid or expired token."), offline_world).
Proof.
  split; [reflexivity|].
  destruct (store_unavailable_open_and_closed (fun p => p) offline_world
              eq_refl) as [Hopen Hclosed].
  split; [apply (Hopen JSON "A" (ret OK)) | apply Hclosed].
Defined.

(** Rotating the issued token "Zm9v": the new token validates, "Zm9v" no
    longer does. *)
Lemma rotate_refresh_token_replaces_witness :
  stored refresh_world (REDIS_REFRESH_KEY "Zm9v") = Some "valid" /\
  exists (T' : string) (w' : world),
    rotate_refresh_token 7 "Zm9v" refresh_world = (Return T', w') /\
    fst (validate_refresh_token T' w') = Return true /\
    fst (validate_refresh_token "Zm9v" w') = Return false.
Proof.
  split; [vm_compute; reflexivity|].
  destruct (rotate_refresh_token_replaces 7 ltac:(lia) refresh_world
              (the_redis refresh_world) "Zm9v")
    as (T' & w_mid & w' & E & _ & Hnew & _ & Hold & _).
  - reflexivity.
  - vm_compute; discriminate.
  - vm_compute; reflexivity.
  - discriminate.
  - by exists T', w'.
Defined.

(** Rotating a token that was never issued yields the token "Zm9v", valid
    for seven days. *)
Lemma rotate_refresh_token_total_witness :
  stored sample_world (REDIS_REFRESH_KEY "never-issued") = None /\
  exists w' : world,
    rotate_refresh_token 7 "never-issued" sample_world =
      (Return "Zm9v", w') /\
    record_of w' (REDIS_REFRESH_KEY "Zm9v") =
      Some {| value := "valid"; expire_at := Some 604800 |}.
Proof.
  split; [vm_compute; reflexivity|].
  destruct (rotate_refresh_token_total 7 ltac:(lia) sample_world
              (the_redis sample_world) "never-issued" eq_refl)
    as (w' & E & _ & Hrec).
  - vm_compute; discriminate.
  - exists w'. split; [exact E|]. apply Hrec. discriminate.
Defined.

(** The token "Zm9v" issued for "a@example.com" resets that password once;
    after other requests, a delay and a rotation it is still refused. *)
Lemma reset_password_single_use_witness :
  stored verify_world (REDIS_VERIFY_KEY "Zm9v") = Some "a@example.com" /\
  exists w1 : world,
    reset_password (fun p => p) "Zm9v" "s3cret" verify_world =
      (Return {| message := "Password reset successful." |}, w1) /\
    users (conn w1) !! "a@example.com" = Some "s3cret" /\
    fst (reset_password (fun p => p) "Zm9v" "again"
           (run 7 (fun p => p)
              [Http "A" (ForgotPassword "b@example.com"); Elapse 5;
               Rotate "Zm9v"; Http "B" (RevokeToken "Zm9v")] w1)) =
      Raise (HTTPException 400 "Invalid or expired token.").
Proof.
  split; [vm_compute; reflexivity|].
  destruct (reset_password_single_use 7 (fun p => p) verify_world
              (the_redis verify_world) "Zm9v" "a@example.com" "s3cret")
    as (w1 & E & Hu & _ & Hagain).
  - reflexivity.
  - vm_compute; reflexivity.
  - discriminate.
  - reflexivity.
  - reflexivity.
  - reflexivity.
  - intros [|n] Hn; [simpl in Hn; lia | discriminate].
  - exists w1. split; [exact E|]. split.
    + rewrite Hu. vm_compute. reflexivity.
    + apply Hagain.
Defined.

(** A second request after 30 seconds moves the expiry from 60 to 90; the
    102nd request of a burst is refused and leaves the expiry alone. *)
Lemma rate_limit_expiry_refreshed_witness :
  (counted second_request_world "A" 1 /\
   window_expiry second_request_world "A" = Some 60 /\
   exists w' : world,
     rate_limit_middleware "A" (ret OK) second_request_world =
       (Return OK, w') /\
     counted w' "A" 2 /\
     window_expiry w' "A" = Some 90) /\
  (counted blocked_world "A" 101 /\
   exists w' : world,
     rate_limit_middleware "A" (ret OK) blocked_world =
       (Raise (HTTPException 429 "Too many requests. Try again later."), w') /\
     window_expiry w' "A" = window_expiry blocked_world "A").
Proof.
  assert (H1 : counted second_request_world "A" 1)
    by (right; split; [lia | vm_compute; reflexivity]).
  assert (H101 : counted blocked_world "A" 101)
    by (right; split; [lia | vm_compute; reflexivity]).
  split.
  - split; [exact H1|]. split; [vm_compute; reflexivity|].
    destruct (rate_limit_expiry_refreshed second_request_world
                (the_redis second_request_world) "A" 1 eq_refl H1)
      as [Hadmit _].
    destruct Hadmit as (w' & E & Hc & Hx); [lia|].
    exists w'. split; [apply (E JSON (ret OK))|]. by split.
  - split; [exact H101|].
    destruct (rate_limit_expiry_refreshed blocked_world
                (the_redis blocked_world) "A" 101 eq_refl H101)
      as [_ Hreject].
    destruct Hreject as (w' & E & _ & Hx); [lia|].
    exists w'. split; [apply (E JSON (ret OK)) | exact Hx].
Defined.

(** An unknown token, the issued token, and the issued token while the
    database refuses commits. *)
Lemma reset_password_error_paths_witness :
  reset_password (fun p => p) "unknown" "s3cret" verify_world =
    (Raise (HTTPException 400 "Invalid or expired token."),
     emit (GET "verify:unknown") verify_world) /\
  (exists w' : world,
      reset_password (fun p => p) "Zm9v" "s3cret" verify_world =
        (Return {| message := "Password reset successful." |}, w') /\
      trace w' =
        trace verify_world ++
          [GET "verify:Zm9v"; SQL_UPDATE_PASSWORD "s3cret" "a@example.com";
           COMMIT; DEL "verify:Zm9v"]) /\
  (exists w' : world,
      reset_password (fun p => p) "Zm9v" "s3cret" verify_world_db_down =
        (Raise OperationalError, w') /\
      stored w' (REDIS_VERIFY_KEY "Zm9v") = Some "a@example.com" /\
      fst (reset_password (fun p => p) "Zm9v" "s3cret"
             (set_conn (repaired (conn w')) w')) =
        Return {| message := "Password reset successful." |}).
Proof.
  split; [|split].
  - destruct (reset_password_error_paths (fun p => p) verify_world
                "unknown" "s3cret") as [Hnone _].
    destruct Hnone as [E | E].
    + left. vm_compute. reflexivity.
    + vm_compute in E. discriminate.
    + exact E.
  - destruct (reset_password_error_paths (fun p => p) verify_world
                "Zm9v" "s3cret") as (_ & Hfound & _).
    destruct (Hfound (the_redis verify_world) "a@example.com")
      as (w' & E & Ht).
    + reflexivity.
    + vm_compute; reflexivity.
    + discriminate.
    + reflexivity.
    + reflexivity.
    + by exists w'.
  - destruct (reset_password_error_paths (fun p => p) verify_world_db_down
                "Zm9v" "s3cret") as (_ & _ & Hfail).
    destruct (Hfail (the_redis verify_world_db_down) "a@example.com")
      as (w' & E & _ & _ & Hs & _ & Hagain).
    + reflexivity.
    + vm_compute; reflexivity.
    + discriminate.
    + reflexivity.
    + exists w'. split; [exact E|]. split; [exact Hs | apply Hagain].
Defined.

(** * More of the service *)

(** ** Start-up *)

Lemma check_env_vars_passes (environ : gmap string string)
    (vars : list string) :
  check_env_vars environ vars = inr tt <->
  Forall (fun var => not_set environ var = false) vars.
Proof.
  induction vars as [|var rest IH]; simpl.
  - split; [constructor | done].
  - destruct (not_set environ var) eqn:Hv.
    + split; [done|]. intros H. inversion H; congruence.
    + rewrite IH. split.
      * intros H. by constructor.
      * intros H. by inversion H.
Qed.

Lemma not_set_false (environ : gmap string string) (var : string) :
  not_set environ var = false <->
  exists (c : Ascii.ascii) (s : string), environ !! var = Some (String c s).
Proof.
  unfold not_set, os_getenv. destruct (environ !! var) as [[|c s]|].
  - split; [done | by intros (c & s & [=])].
  - split; [by exists c, s | done].
  - split; [done | by intros (c & s & [=])].
Qed.

(** X1. The check of the environment passes exactly when each of the eleven
    required variables is set to a string that is not empty. *)
Theorem validate_environment_passes (environ : gmap string string) :
  validate_environment environ = inr tt <->
  forall var : string,
    var ∈ required_env_vars ->
    exists (c : Ascii.ascii) (s : string), environ !! var = Some (String c s).
Proof.
  unfold validate_environment. rewrite check_env_vars_passes, Forall_forall.
  split; intros H var Hin; apply not_set_false; by apply H.
Qed.

Lemma check_env_vars_fails (environ : gmap string string)
    (vars : list string) (message : string) :
  check_env_vars environ vars = inl message ->
  exists (before : list string) (var : string) (after : list string),
    vars = before ++ var :: after /\
    message = "Missing required environment variable: " +:+ var /\
    not_set environ var = true /\
    Forall (fun v => not_set environ v = false) before.
Proof.
  induction vars as [|var rest IH]; simpl; [done|].
  destruct (not_set environ var) eqn:Hv.
  - intros [= <-]. exists [], var, rest. by repeat split.
  - intros H. destruct (IH H) as (before & v & after & -> & Hm & Hn & Hb).
    exists (var :: before), v, after. repeat split; try done.
    by constructor.
Qed.

(** X2. When the check of the environment fails, its message names a
    required variable that is unset or empty, and every required variable
    listed before that one is set: the first missing variable is reported. *)
Theorem validate_environment_first_missing (environ : gmap string string)
    (message : string) :
  validate_environment environ = inl message ->
  exists (before : list string) (var : string) (after : list string),
    required_env_vars = before ++ var :: after /\
    message = "Missing required environment variable: " +:+ var /\
    (environ !! var = None \/ environ !! var = Some "") /\
    forall v : string,
      v ∈ before ->
      exists (c : Ascii.ascii) (s : string), environ !! v = Some (String c s).
Proof.
  intros H. apply check_env_vars_fails in H.
  destruct H as (before & var & after & E & Hm & Hn & Hb).
  exists before, var, after. repeat split; try done.
  - unfold not_set, os_getenv in Hn.
    destruct (environ !! var) as [[|c s]|]; [by right | done | by left].
  - intros v Hv. apply not_set_false.
    rewrite Forall_forall in Hb. by apply Hb.
Qed.

(** The sample environment without its store host: the check names
    REDIS_HOST. *)
Lemma validate_environment_first_missing_witness :
  validate_environment (delete "REDIS_HOST" sample_environ) =
    inl "Missing required environment variable: REDIS_HOST" /\
  exists (before : list string) (var : string) (after : list string),
    required_env_vars = before ++ var :: after /\
    "Missing required environment variable: REDIS_HOST" =
      "Missing required environment variable: " +:+ var /\
    forall v : string,
      v ∈ before ->
      exists (c : Ascii.ascii) (s : string),
        delete "REDIS_HOST" sample_environ !! v = Some (String c s).
Proof.
  split; [vm_compute; reflexivity|].
  destruct (validate_environment_first_missing
              (delete "REDIS_HOST" sample_environ)
              "Missing required environment variable: REDIS_HOST")
    as (before & var & after & E & Hm & _ & Hb).
  - vm_compute. reflexivity.
  - by exists before, var, after.
Defined.

Lemma py_int_letter (c : Ascii.ascii) (rest : string) :
  is_letter c = true -> py_int (String c rest) = None.
Proof.
  intros Hl.
  assert (is_space c = false /\ digit_value c = None /\
          (Ascii.nat_of_ascii c =? 45)%nat = false /\
          (Ascii.nat_of_ascii c =? 43)%nat = false) as (Hs & Hd & Hm & Hp).
  { destruct c as [[] [] [] [] [] [] [] []]; vm_compute in Hl;
      try discriminate Hl; by vm_compute. }
  unfold py_int. cbn [lstrip]. rewrite Hs.
  assert (exists t : string, rstrip (String c rest) = String c t) as [t ->].
  { cbn [rstrip]. rewrite Hs. destruct (rstrip rest); eauto. }
  rewrite Hm, Hp. cbn [digits_value]. by rewrite Hd.
Qed.

Section ConnectionProperties.

Variable redis_Redis :
  string -> Z -> option string -> nat -> string + redis.

(** X3. [get_redis_connection] makes at most three attempts and stops at the
    first that succeeds: it logs one error per failed attempt, numbered from
    1, with the cause of that attempt.  When it returns a client, fewer than
    three failures were logged and the client is the one built by the
    attempt that follows them; it returns [None] exactly when three failures
    were logged, and then every one of the three attempts failed. *)
Theorem get_redis_connection_first_success (environ : gmap string string) :
  (forall i : nat,
      (i < length (snd (get_redis_connection redis_Redis environ)))%nat ->
      exists e : connect_error,
        connect_once redis_Redis environ i = inl e /\
        snd (get_redis_connection redis_Redis environ) !! i =
          Some {| attempt_number := i + 1; cause := e |}) /\
  (forall client : redis,
      fst (get_redis_connection redis_Redis environ) = Some client ->
      (length (snd (get_redis_connection redis_Redis environ)) < 3)%nat /\
      connect_once redis_Redis environ
        (length (snd (get_redis_connection redis_Redis environ))) =
        inr client) /\
  (fst (get_redis_connection redis_Redis environ) = None <->
   length (snd (get_redis_connection redis_Redis environ)) = 3%nat).
Proof.
  unfold get_redis_connection, retries. cbn [connection_attempts].
  destruct (connect_once redis_Redis environ 0) as [e0|c0] eqn:H0.
  2:{ simpl. split; [intros i Hi; lia|].
      split; [intros client [= <-]; split; [lia | exact H0] | by split]. }
  cbn [Nat.eqb Nat.sub app].
  destruct (connect_once redis_Redis environ 1) as [e1|c1] eqn:H1.
  2:{ simpl. split; [intros [|i] Hi; [by exists e0 | lia]|].
      split; [intros client [= <-]; split; [lia | exact H1] | by split]. }
  cbn [Nat.eqb Nat.sub app].
  destruct (connect_once redis_Redis environ 2) as [e2|c2] eqn:H2.
  - simpl. split; [|by split].
    intros [|[|[|i]]] Hi; [by exists e0 | by exists e1 | by exists e2 | lia].
  - simpl. split; [intros [|[|i]] Hi; [by exists e0 | by exists e1 | lia]|].
    split; [intros client [= <-]; split; [lia | exact H2] | by split].
Qed.

(** X4. A REDIS_PORT that starts with a letter satisfies the check of the
    environment for that variable, and yet no client is ever built: each of
    the three attempts fails on the port before the constructor is called,
    and [get_redis_connection] returns [None] with three logged errors. *)
Theorem get_redis_connection_bad_port (environ : gmap string string)
    (c : Ascii.ascii) (rest : string) :
  environ !! "REDIS_PORT" = Some (String c rest) ->
  is_letter c = true ->
  not_set environ "REDIS_PORT" = false /\
  get_redis_connection redis_Redis environ =
    (None,
     [{| attempt_number := 1; cause := BadPort (String c rest) |};
      {| attempt_number := 2; cause := BadPort (String c rest) |};
      {| attempt_number := 3; cause := BadPort (String c rest) |}]).
Proof.
  intros Hp Hl. split.
  - unfold not_set, os_getenv. by rewrite Hp.
  - unfold get_redis_connection, retries. cbn [connection_attempts].
    unfold connect_once, getenv_int, os_getenv. rewrite Hp.
    rewrite (py_int_letter c rest Hl). reflexivity.
Qed.

End ConnectionProperties.

(** With the port "redis" in the sample environment, the check of the
    environment passes and the connection is [None]. *)
Lemma get_redis_connection_bad_port_witness :
  validate_environment (<["REDIS_PORT" := "redis"]> sample_environ) = inr tt /\
  fst (get_redis_connection flaky_Redis
         (<["REDIS_PORT" := "redis"]> sample_environ)) = None.
Proof.
  split; [vm_compute; reflexivity|].
  destruct (get_redis_connection_bad_port flaky_Redis
              (<["REDIS_PORT" := "redis"]> sample_environ)
              (Ascii.ascii_of_nat 114) "edis")
    as [_ E].
  - vm_compute. reflexivity.
  - reflexivity.
  - by rewrite E.
Defined.

(** ** Verification tokens *)

(** The world that [forgot_password] leaves when there is a store. *)
Lemma forgot_password_run (w : world) (r : redis) (email : string) :
  redis_client w = Some r ->
  exists w' : world,
    forgot_password email w =
      (Return {| message := "Password reset email sent." |}, w') /\
    redis_client w' =
      Some (Redis.with_keyspace
              (<[REDIS_VERIFY_KEY (token_source w (tokens_drawn w)) :=
                   {| value := email; expire_at := Some (clock w + 86400) |}]>
                 (keyspace r)) r) /\
    trace w' =
      trace w ++
        [SETEX (REDIS_VERIFY_KEY (token_source w (tokens_drawn w))) 86400
           email;
         ADD_TASK email "Password Reset"
           (reset_link (token_source w (tokens_drawn w)))] /\
    clock w' = clock w /\
    conn w' = conn w /\
    token_source w' = token_source w /\
    tokens_drawn w' = S (tokens_drawn w).
Proof.
  intros Hr. destruct w as [now c d src drawn tr]. simpl in Hr. subst c.
  unfold forgot_password, bind, generate_verification_token, token_urlsafe,
    store_email_verification_token, redis_client_truthy, redis_setex, call,
    send_email_background.
  unfold bind. cbn -[Redis.setex]. rewrite setex_day.
  simpl. eexists. split; [reflexivity|]. simpl.
  repeat split. by rewrite <- app_assoc.
Qed.

Lemma stored_insert_at (w : world) (r : redis) (k : string) (e : entry) :
  redis_client w = Some (Redis.with_keyspace (<[k := e]> (keyspace r)) r) ->
  stored w k = if Redis.live (clock w) e then Some (value e) else None.
Proof.
  intros Hr. unfold stored, record_of, Redis.lookup. rewrite Hr. simpl.
  rewrite lookup_insert_eq. by destruct (Redis.live (clock w) e).
Qed.

(** X5. A verification token stored for an email reads back as that email
    during the 86400 seconds that follow, and as nothing from then on. *)
Theorem verification_token_round_trip (w : world) (r : redis)
    (email token : string) (seconds : Z) :
  redis_client w = Some r ->
  0 <= seconds ->
  fst (get_email_verification_token token
         (set_clock
            (clock (snd (store_email_verification_token email token w))
             + seconds)
            (snd (store_email_verification_token email token w)))) =
    Return (if seconds <? 86400 then Some email else None).
Proof.
  intros Hr _.
  unfold store_email_verification_token, bind, redis_client_truthy.
  rewrite Hr. unfold redis_setex. rewrite (call_present _ _ _ _ Hr).
  rewrite setex_day. cbn [fst snd ret].
  erewrite get_email_verification_token_present by reflexivity.
  cbn [fst]. f_equal.
  erewrite stored_insert_at by reflexivity.
  unfold Redis.live. simpl.
  destruct (Z.ltb_spec seconds 86400) as [Hlt | Hge].
  - by assert ((clock w + seconds <? clock w + 86400) = true) as ->
      by (apply Z.ltb_lt; lia).
  - by assert ((clock w + seconds <? clock w + 86400) = false) as ->
      by (apply Z.ltb_ge; lia).
Qed.

(** Read back after one hour and after one day. *)
Lemma verification_token_round_trip_witness :
  fst (get_email_verification_token "Zm9v"
         (set_clock 3600
            (snd (store_email_verification_token "a@example.com" "Zm9v"
                    sample_world)))) = Return (Some "a@example.com") /\
  fst (get_email_verification_token "Zm9v"
         (set_clock 86400
            (snd (store_email_verification_token "a@example.com" "Zm9v"
                    sample_world)))) = Return None.
Proof.
  split.
  - apply (verification_token_round_trip sample_world
             (the_redis sample_world) "a@example.com" "Zm9v" 3600 eq_refl).
    lia.
  - apply (verification_token_round_trip sample_world
             (the_redis sample_world) "a@example.com" "Zm9v" 86400 eq_refl).
    lia.
Defined.

(** X6. With a store, [forgot_password] draws one token, binds it to the
    email for 86400 seconds and queues one message for that same email whose
    link carries that same token; these two are all its effects, and the
    database, the clock and the other records are left alone. *)
Theorem forgot_password_mails_stored_token (w : world) (r : redis)
    (email : string) :
  redis_client w = Some r ->
  exists w' : world,
    forgot_password email w =
      (Return {| message := "Password reset email sent." |}, w') /\
    trace w' =
      trace w ++
        [SETEX (REDIS_VERIFY_KEY (token_source w (tokens_drawn w))) 86400
           email;
         ADD_TASK email "Password Reset"
           (reset_link (token_source w (tokens_drawn w)))] /\
    record_of w' (REDIS_VERIFY_KEY (token_source w (tokens_drawn w))) =
      Some {| value := email; expire_at := Some (clock w + 86400) |} /\
    (forall k : string,
        k <> REDIS_VERIFY_KEY (token_source w (tokens_drawn w)) ->
        record_of w' k = record_of w k) /\
    tokens_drawn w' = S (tokens_drawn w) /\
    conn w' = conn w /\
    clock w' = clock w.
Proof.
  intros Hr.
  destruct (forgot_password_run w r email Hr)
    as (w' & E & Hr' & Ht & Hc & Hd & _ & Hn).
  exists w'. split; [exact E|]. split; [exact Ht|].
  split.
  { unfold record_of, Redis.lookup, Redis.live. rewrite Hr', Hc. simpl.
    rewrite lookup_insert_eq. simpl.
    by assert ((clock w <? clock w + 86400) = true) as ->
      by (apply Z.ltb_lt; lia). }
  split; [|done].
  intros k Hk. unfold record_of, Redis.lookup. rewrite Hr', Hr, Hc. simpl.
  by rewrite lookup_insert_ne.
Qed.

(** In the sample world the first token, "Zm9v", is stored and mailed. *)
Lemma forgot_password_mails_stored_token_witness :
  exists w' : world,
    forgot_password "a@example.com" sample_world =
      (Return {| message := "Password reset email sent." |}, w') /\
    trace w' =
      [SETEX "verify:Zm9v" 86400 "a@example.com";
       ADD_TASK "a@example.com" "Password Reset" (reset_link "Zm9v")].
Proof.
  destruct (forgot_password_mails_stored_token sample_world
              (the_redis sample_world) "a@example.com" eq_refl)
    as (w' & E & Ht & _).
  exists w'. split; [exact E | exact Ht].
Defined.

(** X7. Without a store, [forgot_password] still answers that the email was
    sent and still queues the message with a freshly drawn token, but that
    token is stored nowhere: no store command is issued, and
    [reset_password] refuses the mailed token with the 400 error. *)
Theorem forgot_password_without_store (pwd_context_hash : string -> string)
    (w : world) (email : string) :
  redis_client w = None ->
  exists w' : world,
    forgot_password email w =
      (Return {| message := "Password reset email sent." |}, w') /\
    redis_client w' = None /\
    trace w' =
      trace w ++
        [ADD_TASK email "Password Reset"
           (reset_link (token_source w (tokens_drawn w)))] /\
    forall new_password : string,
      fst (reset_password pwd_context_hash (token_source w (tokens_drawn w))
             new_password w') =
        Raise (HTTPException 400 "Invalid or expired token.").
Proof.
  intros Hr. destruct w as [now c d src drawn tr]. simpl in Hr. subst c.
  eexists. split; [reflexivity|].
  split; [reflexivity|]. split; [reflexivity|]. intros new_password.
  rewrite reset_password_not_found; [done|].
  left. by rewrite get_email_verification_token_absent.
Qed.

(** In the sample world without its store connection. *)
Lemma forgot_password_without_store_witness :
  fst (forgot_password "a@example.com" offline_world) =
    Return {| message := "Password reset email sent." |} /\
  fst (reset_password (fun p => p) "Zm9v" "s3cret"
         (snd (forgot_password "a@example.com" offline_world))) =
    Raise (HTTPException 400 "Invalid or expired token.").
Proof.
  destruct (forgot_password_without_store (fun p => p) offline_world
              "a@example.com" eq_refl) as (w' & E & _ & _ & Hreset).
  rewrite E. split; [reflexivity | apply Hreset].
Defined.

(** X8. The link mailed by [forgot_password] works for 86400 seconds: a
    [reset_password] with its token succeeds when less than 86400 seconds
    have passed (the database accepting the update), and from then on it is
    refused with the 400 error and the user table is as it was. *)
Theorem reset_link_expires (pwd_context_hash : string -> string)
    (w : world) (r : redis) (email new_password : string) (seconds : Z) :
  redis_client w = Some r ->
  email <> "" ->
  execute_ok (conn w) = true ->
  commit_ok (conn w) = true ->
  0 <= seconds ->
  fst (reset_password pwd_context_hash (token_source w (tokens_drawn w))
         new_password
         (set_clock (clock (snd (forgot_password email w)) + seconds)
            (snd (forgot_password email w)))) =
    (if seconds <? 86400
     then Return {| message := "Password reset successful." |}
     else Raise (HTTPException 400 "Invalid or expired token.")) /\
  (86400 <= seconds ->
   users (conn (snd (reset_password pwd_context_hash
                       (token_source w (tokens_drawn w)) new_password
                       (set_clock
                          (clock (snd (forgot_password email w)) + seconds)
                          (snd (forgot_password email w)))))) =
     users (conn w)).
Proof.
  intros Hr He Hx Hc _.
  destruct (forgot_password_run w r email Hr)
    as (w' & E & Hr' & _ & Hcl & Hd & _ & _).
  rewrite E. cbn [snd].
  set (w1 := set_clock (clock w' + seconds) w').
  assert (Hr1 : redis_client w1 =
                Some (Redis.with_keyspace
                        (<[REDIS_VERIFY_KEY (token_source w (tokens_drawn w)) :=
                             {| value := email;
                                expire_at := Some (clock w + 86400) |}]>
                           (keyspace r)) r)) by exact Hr'.
  pose proof (stored_insert_at w1 r _ _ Hr1) as Hs.
  unfold Redis.live in Hs. simpl in Hs. rewrite Hcl in Hs.
  destruct (Z.ltb_spec seconds 86400) as [Hlt | Hge].
  - assert ((clock w + seconds <? clock w + 86400) = true) as Hl
      by (apply Z.ltb_lt; lia).
    rewrite Hl in Hs.
    destruct (reset_password_found pwd_context_hash w1 _
                (token_source w (tokens_drawn w)) new_password email Hr1 Hs He)
      as (w2 & E2 & _).
    + simpl. by rewrite Hd.
    + simpl. by rewrite Hd.
    + rewrite E2. split; [done | lia].
  - assert ((clock w + seconds <? clock w + 86400) = false) as Hl
      by (apply Z.ltb_ge; lia).
    rewrite Hl in Hs.
    assert (Hget : fst (get_email_verification_token
                          (token_source w (tokens_drawn w)) w1) = Return None).
    { erewrite get_email_verification_token_present by exact Hr1.
      simpl. by rewrite Hs. }
    rewrite reset_password_not_found by (by left).
    split; [done|]. intros _.
    erewrite get_email_verification_token_present by exact Hr1.
    simpl. by rewrite Hd.
Qed.

(** The link of the sample world after one hour and after one day. *)
Lemma reset_link_expires_witness :
  fst (reset_password (fun p => p) "Zm9v" "s3cret"
         (set_clock 3600 verify_world)) =
    Return {| message := "Password reset successful." |} /\
  fst (reset_password (fun p => p) "Zm9v" "s3cret"
         (set_clock 86400 verify_world)) =
    Raise (HTTPException 400 "Invalid or expired token.").
Proof.
  split.
  - apply (reset_link_expires (fun p => p) sample_world
             (the_redis sample_world) "a@example.com" "s3cret" 3600);
      [reflexivity | discriminate | reflexivity | reflexivity | lia].
  - apply (reset_link_expires (fun p => p) sample_world
             (the_redis sample_world) "a@example.com" "s3cret" 86400);
      [reflexivity | discriminate | reflexivity | reflexivity | lia].
Defined.

(** ** What a handler leaves alone *)

Section Frame.

Variable k0 : string.
Variable w0 : world.

Lemma keeps_frame_call {A} (e : effect)
    (cmd : Z -> redis -> result A * redis) :
  (forall (now : Z) (r : redis) (k : string),
      k <> k0 -> keyspace (snd (cmd now r)) !! k = keyspace r !! k) ->
  keeps (same_records_but k0 w0) (call e cmd).
Proof.
  intros Hcmd w Hw. unfold call.
  destruct (redis_client w) as [r|] eqn:Hr; [|exact Hw].
  assert (same_records_but k0 w0
            (set_redis_client (Some (snd (cmd (clock w) r))) (emit e w)))
    as Hb.
  { intros k Hk. rewrite <- (Hw k Hk).
    unfold record_of, Redis.lookup. rewrite Hr. simpl.
    by rewrite (Hcmd (clock w) r k Hk). }
  by destruct (cmd (clock w) r) as [[a|x] r'].
Qed.

Lemma keeps_frame_local {A} (m : M A) :
  (forall w, redis_client (snd (m w)) = redis_client w /\
             clock (snd (m w)) = clock w) ->
  keeps (same_records_but k0 w0) m.
Proof.
  intros H w Hw. destruct (H w) as [Hr Hc].
  assert (same_records_but k0 w0 (snd (m w))) as Hb.
  { intros k Hk. rewrite <- (Hw k Hk). unfold record_of. by rewrite Hr, Hc. }
  by destruct (m w) as [[a|x] w'].
Qed.

Lemma keeps_frame_get (k : string) :
  keeps (same_records_but k0 w0) (redis_get k).
Proof. apply keeps_frame_call. by intros now r k' Hk'. Qed.

Lemma keeps_frame_delete :
  keeps (same_records_but k0 w0) (redis_delete k0).
Proof.
  apply keeps_frame_call. intros now r k Hk. simpl.
  by rewrite lookup_delete_ne.
Qed.

Lemma keeps_frame_incr :
  keeps (same_records_but k0 w0) (redis_incr k0).
Proof.
  apply keeps_frame_call. intros now r k Hk. unfold Redis.incr.
  destruct (Redis.lookup now r k0) as [e|]; simpl.
  - destruct (Redis.integer_of (value e)) as [n|]; [|done].
    destruct ((- 2 ^ 63 <=? n) && (n <? 2 ^ 63 - 1)); simpl; [|done].
    by rewrite lookup_insert_ne.
  - by rewrite lookup_insert_ne.
Qed.

Lemma keeps_frame_expire (seconds : Z) :
  keeps (same_records_but k0 w0) (redis_expire k0 seconds).
Proof.
  apply keeps_frame_call. intros now r k Hk. unfold Redis.expire.
  destruct (Redis.lookup now r k0) as [e|]; [|done].
  destruct (seconds <=? 0); simpl.
  - by rewrite lookup_delete_ne.
  - by rewrite lookup_insert_ne.
Qed.

Lemma keeps_frame_truthy :
  keeps (same_records_but k0 w0) redis_client_truthy.
Proof. by apply keeps_frame_local. Qed.

End Frame.

Lemma keeps_frame_reset_password (h : string -> string) (w0 : world)
    (token new_password : string) :
  keeps (same_records_but (REDIS_VERIFY_KEY token) w0)
    (reset_password h token new_password).
Proof.
  unfold reset_password.
  apply keeps_bind.
  - unfold get_email_verification_token.
    apply keeps_bind; [apply keeps_frame_truthy|].
    intros [|]; [apply keeps_frame_get | apply keeps_ret].
  - intros [[|a email]|]; cbn beta iota zeta;
      [by apply keeps_raise | | by apply keeps_raise].
    apply keeps_bind.
    { apply keeps_frame_local. intros w. unfold cursor_execute.
      by destruct (execute_ok (conn w)). }
    intros _. apply keeps_bind.
    { apply keeps_frame_local. intros w. unfold conn_commit.
      by destruct (commit_ok (conn w)). }
    intros _. apply keeps_bind; [apply keeps_frame_delete|]. intros _.
    apply keeps_ret.
Qed.

(** X9. Whether it succeeds or fails, [reset_password] changes no record of
    the store other than the one of its own token: the refresh tokens, the
    request counters and the other verification tokens have after the call
    the value and the expiry that they had before, so a password reset ends
    no session. *)
Theorem reset_password_keeps_other_records
    (pwd_context_hash : string -> string) (w : world)
    (token new_password : string) :
  (forall T : string,
      record_of (snd (reset_password pwd_context_hash token new_password w))
        (REDIS_REFRESH_KEY T) = record_of w (REDIS_REFRESH_KEY T)) /\
  (forall user_ip : string,
      record_of (snd (reset_password pwd_context_hash token new_password w))
        (REDIS_RATE_LIMIT_KEY user_ip) =
        record_of w (REDIS_RATE_LIMIT_KEY user_ip)) /\
  (forall V : string,
      V <> token ->
      record_of (snd (reset_password pwd_context_hash token new_password w))
        (REDIS_VERIFY_KEY V) = record_of w (REDIS_VERIFY_KEY V)).
Proof.
  assert (H : same_records_but (REDIS_VERIFY_KEY token) w
                (snd (reset_password pwd_context_hash token new_password w))).
  { apply keeps_snd; [apply keeps_frame_reset_password | by intros k Hk]. }
  split; [|split].
  - intros T. apply H, refresh_verify_key.
  - intros user_ip. apply H, rate_limit_verify_key.
  - intros V HV. apply H. intros E. by apply verify_key_inj in E.
Qed.

(** The refresh token "Zm9v" of the sample world keeps its record, with its
    expiry after seven days, through the reset done with the verification
    token "YmFy"; that verification token keeps its record through a refused
    reset with another token. *)
Lemma reset_password_keeps_other_records_witness :
  fst (reset_password (fun p => p) "YmFy" "s3cret"
         (snd (forgot_password "a@example.com" refresh_world))) =
    Return {| message := "Password reset successful." |} /\
  record_of (snd (reset_password (fun p => p) "YmFy" "s3cret"
                    (snd (forgot_password "a@example.com" refresh_world))))
    (REDIS_REFRESH_KEY "Zm9v") =
    Some {| value := "valid"; expire_at := Some 604800 |} /\
  record_of (snd (reset_password (fun p => p) "Zm9v" "s3cret"
                    (snd (forgot_password "a@example.com" refresh_world))))
    (REDIS_VERIFY_KEY "YmFy") =
    Some {| value := "a@example.com"; expire_at := Some 86400 |}.
Proof.
  split; [vm_compute; reflexivity|]. split.
  - destruct (reset_password_keeps_other_records (fun p => p)
                (snd (forgot_password "a@example.com" refresh_world))
                "YmFy" "s3cret") as (Hrefresh & _ & _).
    rewrite Hrefresh. vm_compute. reflexivity.
  - destruct (reset_password_keeps_other_records (fun p => p)
                (snd (forgot_password "a@example.com" refresh_world))
                "Zm9v" "s3cret") as (_ & _ & Hverify).
    rewrite Hverify; [vm_compute; reflexivity | discriminate].
Defined.

(** ** More on password resets *)

(** A successful [reset_password] leaves the database willing. *)
Lemma reset_password_found_flags (h : string -> string) (w : world)
    (r : redis) (token new_password email : string) :
  redis_client w = Some r ->
  stored w (REDIS_VERIFY_KEY token) = Some email ->
  email <> "" ->
  execute_ok (conn w) = true ->
  commit_ok (conn w) = true ->
  execute_ok (conn (snd (reset_password h token new_password w))) = true /\
  commit_ok (conn (snd (reset_password h token new_password w))) = true.
Proof.
  intros Hr Hs He Hx Hc. unfold reset_password, bind.
  rewrite (get_email_verification_token_present _ _ _ Hr), Hs.
  destruct email as [|a email]; [done|].
  unfold cursor_execute, conn_commit, redis_delete, call. simpl.
  rewrite Hx. simpl. rewrite Hc. simpl. rewrite Hr. simpl.
  by split.
Qed.

Lemma alter_absent (f : string -> string) (k : string)
    (m : gmap string string) :
  m !! k = None -> alter f k m = m.
Proof.
  intros H. apply map_eq. intros j. rewrite lookup_alter.
  case_decide; [|done]. subst j. by rewrite H.
Qed.

(** X10. A token bound to an email that has no row in the user table is
    consumed like any other: [reset_password] answers with its success
    message and deletes the token, and the user table is unchanged. *)
Theorem reset_password_unknown_user (pwd_context_hash : string -> string)
    (w : world) (r : redis) (token new_password email : string) :
  redis_client w = Some r ->
  stored w (REDIS_VERIFY_KEY token) = Some email ->
  email <> "" ->
  execute_ok (conn w) = true ->
  commit_ok (conn w) = true ->
  pending (conn w) = [] ->
  users (conn w) !! email = None ->
  exists w' : world,
    reset_password pwd_context_hash token new_password w =
      (Return {| message := "Password reset successful." |}, w') /\
    users (conn w') = users (conn w) /\
    stored w' (REDIS_VERIFY_KEY token) = None.
Proof.
  intros Hr Hs He Hx Hc Hp Hu.
  destruct (reset_password_found pwd_context_hash w r token new_password
              email Hr Hs He Hx Hc) as (w' & E & Hu' & _ & Hr' & _).
  exists w'. split; [exact E|]. split.
  - rewrite Hu', Hp. simpl. unfold apply_update. simpl.
    by apply alter_absent.
  - unfold stored, record_of, Redis.lookup. rewrite Hr'. simpl.
    by rewrite lookup_delete_eq.
Qed.

(** A reset for "b@example.com", which is not a user of the sample world. *)
Lemma reset_password_unknown_user_witness :
  exists w' : world,
    reset_password (fun p => p) "Zm9v" "s3cret"
      (snd (forgot_password "b@example.com" sample_world)) =
      (Return {| message := "Password reset successful." |}, w') /\
    users (conn w') = {[ "a@example.com" := "old-hash" ]}.
Proof.
  destruct (reset_password_unknown_user (fun p => p)
              (snd (forgot_password "b@example.com" sample_world))
              (the_redis (snd (forgot_password "b@example.com" sample_world)))
              "Zm9v" "s3cret" "b@example.com")
    as (w' & E & Hu & _).
  - reflexivity.
  - vm_compute. reflexivity.
  - discriminate.
  - reflexivity.
  - reflexivity.
  - reflexivity.
  - vm_compute. reflexivity.
  - exists w'. split; [exact E | exact Hu].
Defined.

(** X11. Two verification tokens issued for the same email are independent:
    consuming one leaves the other usable, and the password that stays is
    the one set by the token consumed last. *)
Theorem outstanding_tokens_independent (pwd_context_hash : string -> string)
    (w : world) (r : redis) (V1 V2 email password1 password2 : string) :
  redis_client w = Some r ->
  V1 <> V2 ->
  stored w (REDIS_VERIFY_KEY V1) = Some email ->
  stored w (REDIS_VERIFY_KEY V2) = Some email ->
  email <> "" ->
  execute_ok (conn w) = true ->
  commit_ok (conn w) = true ->
  pending (conn w) = [] ->
  exists w1 w2 : world,
    reset_password pwd_context_hash V1 password1 w =
      (Return {| message := "Password reset successful." |}, w1) /\
    reset_password pwd_context_hash V2 password2 w1 =
      (Return {| message := "Password reset successful." |}, w2) /\
    users (conn w2) =
      alter (fun _ => pwd_context_hash password2) email (users (conn w)) /\
    stored w2 (REDIS_VERIFY_KEY V1) = None /\
    stored w2 (REDIS_VERIFY_KEY V2) = None.
Proof.
  intros Hr Hne Hs1 Hs2 He Hx Hc Hp.
  destruct (reset_password_found pwd_context_hash w r V1 password1 email
              Hr Hs1 He Hx Hc)
    as (w1 & E1 & Hu1 & Hp1 & Hr1 & _ & Hcl1 & _).
  destruct (reset_password_found_flags pwd_context_hash w r V1 password1
              email Hr Hs1 He Hx Hc) as [Hx1 Hc1].
  rewrite E1 in Hx1, Hc1. simpl in Hx1, Hc1.
  assert (Hk : REDIS_VERIFY_KEY V1 <> REDIS_VERIFY_KEY V2)
    by (intros E; by apply verify_key_inj in E).
  assert (Hs2' : stored w1 (REDIS_VERIFY_KEY V2) = Some email).
  { unfold stored, record_of, Redis.lookup in *.
    rewrite Hr1, Hcl1. rewrite Hr in Hs2. simpl.
    by rewrite lookup_delete_ne. }
  destruct (reset_password_found pwd_context_hash w1 _ V2 password2 email
              Hr1 Hs2' He Hx1 Hc1)
    as (w2 & E2 & Hu2 & _ & Hr2 & _).
  exists w1, w2. split; [exact E1|]. split; [exact E2|]. split.
  { rewrite Hu2, Hp1, Hu1, Hp. simpl. unfold apply_update. simpl.
    apply map_eq. intros j. rewrite !lookup_alter.
    case_decide; [|done]. subst j.
    case_decide; [|done].
    by destruct (users (conn w) !! email). }
  unfold stored, record_of, Redis.lookup. rewrite Hr2. simpl. split.
  - rewrite lookup_delete_ne by (intros E; by apply Hk).
    by rewrite lookup_delete_eq.
  - by rewrite lookup_delete_eq.
Qed.

(** Two resets requested for the user of the sample world, then both links
    used. *)
Lemma outstanding_tokens_independent_witness :
  exists w1 w2 : world,
    reset_password (fun p => p) "Zm9v" "first"
      (snd (forgot_password "a@example.com" verify_world)) =
      (Return {| message := "Password reset successful." |}, w1) /\
    reset_password (fun p => p) "YmFy" "second" w1 =
      (Return {| message := "Password reset successful." |}, w2) /\
    users (conn w2) !! "a@example.com" = Some "second".
Proof.
  destruct (outstanding_tokens_independent (fun p => p)
              (snd (forgot_password "a@example.com" verify_world))
              (the_redis (snd (forgot_password "a@example.com" verify_world)))
              "Zm9v" "YmFy" "a@example.com" "first" "second")
    as (w1 & w2 & E1 & E2 & Hu & _).
  - reflexivity.
  - discriminate.
  - vm_compute. reflexivity.
  - vm_compute. reflexivity.
  - discriminate.
  - reflexivity.
  - reflexivity.
  - reflexivity.
  - exists w1, w2. split; [exact E1|]. split; [exact E2|].
    rewrite Hu. vm_compute. reflexivity.
Defined.

(** X12. A token that has no record and that the entropy source does not
    produce is never accepted: whatever requests, rotations and delays come
    first, [reset_password] refuses it with the 400 error. *)
Theorem never_issued_token_refused (REFRESH_TOKEN_EXPIRE_DAYS : Z)
    (pwd_context_hash : string -> string) (w : world) (V : string)
    (evs : list event) (new_password : string) :
  unissued V w ->
  fst (reset_password pwd_context_hash V new_password
         (run REFRESH_TOKEN_EXPIRE_DAYS pwd_context_hash evs w)) =
    Raise (HTTPException 400 "Invalid or expired token.").
Proof.
  intros H. apply unissued_reset_password_fails. by apply unissued_run.
Qed.

(** The guess "guess" is refused in the sample world after a reset was
    requested, time has passed and a token was rotated. *)
Lemma never_issued_token_refused_witness :
  fst (reset_password (fun p => p) "guess" "s3cret"
         (run 7 (fun p => p)
            [Http "A" (ForgotPassword "a@example.com"); Elapse 10;
             Rotate "guess"; Http "A" (ResetPassword "Zm9v" "new")]
            sample_world)) =
    Raise (HTTPException 400 "Invalid or expired token.").
Proof.
  apply never_issued_token_refused. split.
  - intros r [= <-]. reflexivity.
  - intros [|n] _; discriminate.
Defined.

(** ** More on refresh tokens *)

(** X13. The handlers that do not test [redis_client] fail without a store:
    [rotate_refresh_token] raises an [AttributeError] after it has drawn its
    token, and [revoke_token] raises one at once; neither issues a store
    command. *)
Theorem unguarded_handlers_without_store (REFRESH_TOKEN_EXPIRE_DAYS : Z)
    (w : world) (old_token token : string) :
  redis_client w = None ->
  rotate_refresh_token REFRESH_TOKEN_EXPIRE_DAYS old_token w =
    (Raise AttributeError, set_tokens_drawn (S (tokens_drawn w)) w) /\
  revoke_token token w = (Raise AttributeError, w).
Proof.
  intros Hr. split.
  - unfold rotate_refresh_token, bind, token_urlsafe, redis_setex, call.
    simpl. by rewrite Hr.
  - unfold revoke_token, bind, redis_setex, call. by rewrite Hr.
Qed.

(** Both handlers in the sample world without its store connection. *)
Lemma unguarded_handlers_without_store_witness :
  fst (rotate_refresh_token 7 "Zm9v" offline_world) = Raise AttributeError /\
  fst (revoke_token "Zm9v" offline_world) = Raise AttributeError.
Proof.
  destruct (unguarded_handlers_without_store 7 offline_world "Zm9v" "Zm9v"
              eq_refl) as [E1 E2].
  by rewrite E1, E2.
Defined.

(** X14. A REFRESH_TOKEN_EXPIRE_DAYS of zero or less is read from the
    environment as it stands, and with it every rotation fails: the store
    refuses the SETEX, [rotate_refresh_token] raises, the old token is not
    deleted and the store is unchanged. *)
Theorem rotate_refresh_token_nonpositive_days (environ : gmap string string)
    (days : Z) (w : world) (r : redis) (old_token : string) :
  environ !! "REFRESH_TOKEN_EXPIRE_DAYS" = Some (py_str days) ->
  days <= 0 ->
  redis_client w = Some r ->
  CONFIGURED_REFRESH_TOKEN_EXPIRE_DAYS environ = Some days /\
  exists w' : world,
    rotate_refresh_token days old_token w = (Raise ResponseError, w') /\
    redis_client w' = Some r /\
    clock w' = clock w /\
    trace w' =
      trace w ++ [SETEX (REDIS_REFRESH_KEY (token_source w (tokens_drawn w)))
                    (days * 86400) "valid"].
Proof.
  intros He Hd Hr. split.
  - unfold CONFIGURED_REFRESH_TOKEN_EXPIRE_DAYS, getenv_int, os_getenv.
    rewrite He. apply py_int_str.
  - unfold rotate_refresh_token, bind, token_urlsafe, redis_setex, call.
    simpl. rewrite Hr. unfold Redis.setex.
    assert ((days * 86400 <=? 0) = true) as -> by (apply Z.leb_le; lia).
    eexists. split; [reflexivity|]. by repeat split.
Qed.

(** With REFRESH_TOKEN_EXPIRE_DAYS=0 the token "Zm9v" of the sample world
    cannot be rotated and stays valid. *)
Lemma rotate_refresh_token_nonpositive_days_witness :
  validate_environment
    (<["REFRESH_TOKEN_EXPIRE_DAYS" := "0"]> sample_environ) = inr tt /\
  fst (rotate_refresh_token 0 "Zm9v" refresh_world) = Raise ResponseError /\
  stored (snd (rotate_refresh_token 0 "Zm9v" refresh_world))
    (REDIS_REFRESH_KEY "Zm9v") = Some "valid".
Proof.
  split; [vm_compute; reflexivity|].
  destruct (rotate_refresh_token_nonpositive_days
              (<["REFRESH_TOKEN_EXPIRE_DAYS" := "0"]> sample_environ) 0
              refresh_world (the_redis refresh_world) "Zm9v")
    as (_ & w' & E & Hr' & Hcl & _).
  - vm_compute. reflexivity.
  - lia.
  - reflexivity.
  - rewrite E. split; [reflexivity|]. cbn [snd].
    unfold stored, record_of. rewrite Hr', Hcl. vm_compute. reflexivity.
Defined.

(** X15. When REFRESH_TOKEN_EXPIRE_DAYS is positive and the store accepts
    the time to live that it gives (its milliseconds, added to the server's
    clock, fit a signed 64-bit integer), the token that a rotation issues
    is valid for REFRESH_TOKEN_EXPIRE_DAYS times 86400 seconds and absent
    from then on. *)
Theorem rotated_token_lifetime (REFRESH_TOKEN_EXPIRE_DAYS : Z) (w : world)
    (r : redis) (old_token : string) (seconds : Z) :
  0 < REFRESH_TOKEN_EXPIRE_DAYS ->
  REFRESH_TOKEN_EXPIRE_DAYS * 86400 * 1000 + Redis.mstime (clock w) <=
    Redis.LLONG_MAX ->
  redis_client w = Some r ->
  token_source w (tokens_drawn w) <> old_token ->
  0 <= seconds ->
  stored
    (set_clock
       (clock (snd (rotate_refresh_token REFRESH_TOKEN_EXPIRE_DAYS old_token
                      w)) + seconds)
       (snd (rotate_refresh_token REFRESH_TOKEN_EXPIRE_DAYS old_token w)))
    (REDIS_REFRESH_KEY (token_source w (tokens_drawn w))) =
    if seconds <? REFRESH_TOKEN_EXPIRE_DAYS * 86400 then Some "valid"
    else None.
Proof.
  intros Hpos Hfit Hr Hne _.
  rewrite (rotate_refresh_token_run _ Hpos w r old_token Hr Hfit). cbn [snd].
  unfold redis_delete, rotation_written, call. simpl.
  unfold stored, record_of, Redis.lookup, Redis.live. simpl.
  rewrite lookup_delete_ne by (intros E; by apply refresh_key_inj in E).
  rewrite lookup_insert_eq. simpl.
  destruct (Z.ltb_spec seconds (REFRESH_TOKEN_EXPIRE_DAYS * 86400)).
  - by assert ((clock w + seconds <?
                clock w + REFRESH_TOKEN_EXPIRE_DAYS * 86400) = true) as ->
      by (apply Z.ltb_lt; lia).
  - by assert ((clock w + seconds <?
                clock w + REFRESH_TOKEN_EXPIRE_DAYS * 86400) = false) as ->
      by (apply Z.ltb_ge; lia).
Qed.

(** The token issued in the sample world, seven days less a second and
    seven days later. *)
Lemma rotated_token_lifetime_witness :
  stored (set_clock 604799 refresh_world) (REDIS_REFRESH_KEY "Zm9v") =
    Some "valid" /\
  stored (set_clock 604800 refresh_world) (REDIS_REFRESH_KEY "Zm9v") = None.
Proof.
  split.
  - apply (rotated_token_lifetime 7 sample_world (the_redis sample_world)
             "" 604799);
      [lia | vm_compute; discriminate | reflexivity | discriminate | lia].
  - apply (rotated_token_lifetime 7 sample_world (the_redis sample_world)
             "" 604800);
      [lia | vm_compute; discriminate | reflexivity | discriminate | lia].
Defined.

(** X22. A REFRESH_TOKEN_EXPIRE_DAYS so large that the milliseconds of the
    time to live exceed the largest signed 64-bit integer makes every
    rotation fail: the store refuses the SETEX, [rotate_refresh_token]
    raises, the old token is not deleted and the store is unchanged. *)
Theorem rotate_refresh_token_days_too_long (days : Z) (w : world)
    (r : redis) (old_token : string) :
  redis_client w = Some r ->
  Redis.LLONG_MAX / 1000 < days * 86400 ->
  exists w' : world,
    rotate_refresh_token days old_token w = (Raise ResponseError, w') /\
    redis_client w' = Some r /\
    clock w' = clock w /\
    trace w' =
      trace w ++ [SETEX (REDIS_REFRESH_KEY (token_source w (tokens_drawn w)))
                    (days * 86400) "valid"].
Proof.
  intros Hr Hd.
  unfold rotate_refresh_token, bind, token_urlsafe, redis_setex, call.
  cbn -[Redis.setex]. rewrite Hr. rewrite setex_too_long.
  2:{ pose proof (mstime_bounds (clock w)) as Hm.
      unfold Redis.LLONG_MAX in *.
      change (9223372036854775807 / 1000) with 9223372036854775 in *. lia. }
  eexists. split; [reflexivity|]. by repeat split.
Qed.

(** With REFRESH_TOKEN_EXPIRE_DAYS=100000000000000 the token "Zm9v" of the
    sample world cannot be rotated and stays valid. *)
Lemma rotate_refresh_token_days_too_long_witness :
  fst (rotate_refresh_token 100000000000000 "Zm9v" refresh_world) =
    Raise ResponseError /\
  stored (snd (rotate_refresh_token 100000000000000 "Zm9v" refresh_world))
    (REDIS_REFRESH_KEY "Zm9v") = Some "valid".
Proof.
  destruct (rotate_refresh_token_days_too_long 100000000000000
              refresh_world (the_redis refresh_world) "Zm9v")
    as (w' & E & Hr' & Hcl & _).
  - reflexivity.
  - vm_compute. reflexivity.
  - rewrite E. split; [reflexivity|]. cbn [snd].
    unfold stored, record_of. rewrite Hr', Hcl. vm_compute. reflexivity.
Defined.

(** ** More on rate limiting *)

Lemma keeps_frame_middleware (user_ip : string) (w0 : world) (resp : JSON) :
  keeps (same_records_but (REDIS_RATE_LIMIT_KEY user_ip) w0)
    (rate_limit_middleware user_ip (ret resp)).
Proof.
  unfold rate_limit_middleware.
  apply keeps_bind; [apply keeps_frame_truthy|].
  intros c. apply keeps_bind; [|intros _; apply keeps_ret].
  destruct c; [|apply keeps_ret].
  apply keeps_bind; [apply keeps_frame_get|].
  intros request_count. apply keeps_bind.
  - unfold over_limit. destruct request_count as [[|a s]|];
      [by apply keeps_ret | | by apply keeps_ret].
    destruct (py_int (String a s)); [apply keeps_ret | apply keeps_raise].
  - intros [|]; [apply keeps_raise|].
    apply keeps_bind; [apply keeps_frame_incr|].
    intros _. apply keeps_bind; [apply keeps_frame_expire|].
    intros _. apply keeps_ret.
Qed.

(** X16. The limiter keeps one counter per client: whether it admits or
    refuses a request of one client, the counters of the other clients, the
    refresh tokens and the verification tokens are what they were. *)
Theorem rate_limit_touches_one_counter (w : world) (user_ip : string)
    (resp : JSON) :
  (forall other_ip : string,
      other_ip <> user_ip ->
      record_of (snd (rate_limit_middleware user_ip (ret resp) w))
        (REDIS_RATE_LIMIT_KEY other_ip) =
        record_of w (REDIS_RATE_LIMIT_KEY other_ip)) /\
  (forall T : string,
      record_of (snd (rate_limit_middleware user_ip (ret resp) w))
        (REDIS_REFRESH_KEY T) = record_of w (REDIS_REFRESH_KEY T)) /\
  (forall V : string,
      record_of (snd (rate_limit_middleware user_ip (ret resp) w))
        (REDIS_VERIFY_KEY V) = record_of w (REDIS_VERIFY_KEY V)).
Proof.
  assert (H : same_records_but (REDIS_RATE_LIMIT_KEY user_ip) w
                (snd (rate_limit_middleware user_ip (ret resp) w))).
  { apply keeps_snd; [apply keeps_frame_middleware | by intros k Hk]. }
  split; [|split].
  - intros other_ip Hne. apply H. intros E.
    by apply rate_limit_key_inj in E.
  - intros T. apply H. intros E. by apply (rate_limit_refresh_key user_ip T).
  - intros V. apply H. intros E. by apply (rate_limit_verify_key user_ip V).
Qed.

(** A request of the client "B" leaves the counter of the blocked client "A"
    at 101. *)
Lemma rate_limit_touches_one_counter_witness :
  stored (snd (rate_limit_middleware "B" (ret OK) blocked_world))
    (REDIS_RATE_LIMIT_KEY "A") = Some "101".
Proof.
  destruct (rate_limit_touches_one_counter blocked_world "B" OK)
    as (Hother & _ & _).
  unfold stored. rewrite Hother; [vm_compute; reflexivity | discriminate].
Defined.

(** X17. A client whose counter stands above 100 is refused until that
    counter expires and not a moment longer: before the expiry every request
    gets the 429 error and changes nothing in the store, so that the refusals
    do not postpone the expiry; from the expiry on, the next request is
    admitted and counted as the first of a new window. *)
Theorem blocked_until_expiry (user_ip : string) (r : redis) (n t : Z)
    (w : world) (A : Type) (call_next : M A) :
  keyspace r !! REDIS_RATE_LIMIT_KEY user_ip =
    Some {| value := py_str n; expire_at := Some t |} ->
  100 < n ->
  redis_client w = Some r ->
  rate_limit_middleware user_ip call_next w =
    if clock w <? t then
      (Raise (HTTPException 429 "Too many requests. Try again later."),
       emit (GET (REDIS_RATE_LIMIT_KEY user_ip)) w)
    else call_next (admitted user_ip 1 w r).
Proof.
  intros Hk Hn Hr.
  destruct (clock w <? t) eqn:Hlt.
  - apply (rate_limit_rejects user_ip w r n Hr); [|exact Hn].
    right. split; [lia|].
    unfold stored. rewrite (record_of_present _ _ _ Hr).
    unfold Redis.lookup, Redis.live. rewrite Hk. simpl. by rewrite Hlt.
  - apply (rate_limit_admits user_ip w r 0 Hr); [|lia].
    left. split; [done|].
    unfold stored. rewrite (record_of_present _ _ _ Hr).
    unfold Redis.lookup, Redis.live. rewrite Hk. simpl. by rewrite Hlt.
Qed.

(** The blocked client "A", whose counter expires at 60: refused at 59,
    admitted at 60. *)
Lemma blocked_until_expiry_witness :
  fst (rate_limit_middleware "A" (ret OK) (set_clock 59 blocked_world)) =
    Raise (HTTPException 429 "Too many requests. Try again later.") /\
  fst (rate_limit_middleware "A" (ret OK) (set_clock 60 blocked_world)) =
    Return OK.
Proof.
  split.
  - rewrite (blocked_until_expiry "A" (the_redis blocked_world) 101 60
               (set_clock 59 blocked_world) JSON (ret OK));
      [reflexivity | vm_compute; reflexivity | lia | reflexivity].
  - rewrite (blocked_until_expiry "A" (the_redis blocked_world) 101 60
               (set_clock 60 blocked_world) JSON (ret OK));
      [reflexivity | vm_compute; reflexivity | lia | reflexivity].
Defined.

(** X18. Requests being handled one after the other, no counter ever goes
    beyond 101: in every world that the service reaches from one whose store
    holds no counter, a counter that is read holds a number from 1 to 101. *)
Theorem rate_limit_counter_at_most_101 (REFRESH_TOKEN_EXPIRE_DAYS : Z)
    (pwd_context_hash : string -> string) (w : world) (evs : list event)
    (user_ip s : string) :
  (forall (r : redis) (ip : string),
      redis_client w = Some r ->
      keyspace r !! REDIS_RATE_LIMIT_KEY ip = None) ->
  stored (run REFRESH_TOKEN_EXPIRE_DAYS pwd_context_hash evs w)
    (REDIS_RATE_LIMIT_KEY user_ip) = Some s ->
  exists n : Z, s = py_str n /\ 1 <= n <= 101.
Proof.
  intros Hnone Hs.
  assert (Hb : bounded_counters
                 (run REFRESH_TOKEN_EXPIRE_DAYS pwd_context_hash evs w)).
  { apply bounded_run. intros r ip e Hr He. by rewrite (Hnone r ip Hr) in He. }
  unfold stored, record_of in Hs.
  destruct (redis_client (run REFRESH_TOKEN_EXPIRE_DAYS pwd_context_hash evs w))
    as [r|] eqn:Hr; [|done].
  unfold Redis.lookup in Hs.
  destruct (keyspace r !! REDIS_RATE_LIMIT_KEY user_ip) as [e|] eqn:He;
    [|done].
  destruct (Redis.live _ e); [|done].
  injection Hs as <-. by apply (Hb r user_ip e).
Qed.

(** Three requests of the client "A" in the sample world. *)
Lemma rate_limit_counter_at_most_101_witness :
  stored (run 7 (fun p => p)
            [Http "A" (ForgotPassword "a@example.com");
             Http "A" (ResetPassword "Zm9v" "s3cret");
             Http "A" (RevokeToken "Zm9v")] sample_world)
    (REDIS_RATE_LIMIT_KEY "A") = Some "3" /\
  exists n : Z, "3" = py_str n /\ 1 <= n <= 101.
Proof.
  assert (Hs : stored (run 7 (fun p => p)
                         [Http "A" (ForgotPassword "a@example.com");
                          Http "A" (ResetPassword "Zm9v" "s3cret");
                          Http "A" (RevokeToken "Zm9v")] sample_world)
                 (REDIS_RATE_LIMIT_KEY "A") = Some "3")
    by (vm_compute; reflexivity).
  split; [exact Hs|].
  apply (rate_limit_counter_at_most_101 7 (fun p => p) sample_world _ "A" "3"
           ltac:(by intros r ip [= <-]) Hs).
Defined.

(** X19. The window slides with every admitted request: a client that
    starts without a counter and sends a request every [gap] seconds, with
    [gap] below 60, however close to 60, has its first 101 requests admitted,
    its counter then stands at 101 and its next request is refused. *)
Theorem steady_client_refused (user_ip : string) (resp : JSON) (gap : nat)
    (w : world) (r : redis) :
  Z.of_nat gap < 60 ->
  redis_client w = Some r ->
  stored w (REDIS_RATE_LIMIT_KEY user_ip) = None ->
  exists w' : world,
    burst 101 gap user_ip resp w = (repeat (Return resp) 101, w') /\
    stored w' (REDIS_RATE_LIMIT_KEY user_ip) = Some (py_str 101) /\
    forall (A : Type) (call_next : M A),
      rate_limit_middleware user_ip call_next w' =
        (Raise (HTTPException 429 "Too many requests. Try again later."),
         emit (GET (REDIS_RATE_LIMIT_KEY user_ip)) w').
Proof.
  intros Hgap Hr Hs.
  destruct (burst_admits user_ip resp gap Hgap 101 w r 0 Hr
              (counted_zero _ _ Hs)) as (w' & r' & E & Hr' & Hc'); [lia|].
  exists w'. split; [exact E|]. split.
  - destruct Hc' as [[? _] | [_ Hc']]; [lia | exact Hc'].
  - intros A call_next.
    apply (rate_limit_rejects user_ip w' r' _ Hr' Hc'). lia.
Qed.

(** The client "A" sending one request every 59 seconds. *)
Lemma steady_client_refused_witness :
  exists w' : world,
    burst 101 59 "A" OK sample_world = (repeat (Return OK) 101, w') /\
    fst (rate_limit_middleware "A" (ret OK) w') =
      Raise (HTTPException 429 "Too many requests. Try again later.").
Proof.
  destruct (steady_client_refused "A" OK 59 sample_world
              (the_redis sample_world)) as (w' & E & _ & Hrej).
  - simpl. lia.
  - reflexivity.
  - reflexivity.
  - exists w'. split; [exact E|]. by rewrite (Hrej JSON (ret OK)).
Defined.

Lemma burst_spaced (user_ip : string) (resp : JSON) (gap : nat) (n : nat) :
  60 <= Z.of_nat gap ->
  forall (w : world) (r : redis),
    redis_client w = Some r ->
    stored w (REDIS_RATE_LIMIT_KEY user_ip) = None ->
    exists (w' : world) (r' : redis),
      burst n gap user_ip resp w = (repeat (Return resp) n, w') /\
      redis_client w' = Some r' /\
      stored w' (REDIS_RATE_LIMIT_KEY user_ip) = None.
Proof.
  intros Hgap. induction n as [|n IH]; intros w r Hr Hs.
  - exists w, r. by repeat split.
  - cbn [burst].
    rewrite (rate_limit_admits user_ip w r 0 Hr (counted_zero _ _ Hs))
      by lia.
    unfold ret at 1.
    destruct (IH (set_clock (clock (admitted user_ip (0 + 1) w r)
                             + Z.of_nat gap)
                    (admitted user_ip (0 + 1) w r))
                (Redis.with_keyspace
                   (<[REDIS_RATE_LIMIT_KEY user_ip :=
                        {| value := py_str (0 + 1);
                           expire_at := Some (clock w + 60) |}]>
                      (keyspace r)) r))
      as (w' & r' & E & Hr' & Hs').
    + reflexivity.
    + unfold stored, record_of, admitted, Redis.lookup, Redis.live. simpl.
      rewrite lookup_insert_eq. simpl.
      by assert ((clock w + Z.of_nat gap <? clock w + 60) = false) as ->
        by (apply Z.ltb_ge; lia).
    + rewrite E. exists w', r'. by repeat split.
Qed.

(** X20. A client that leaves 60 seconds or more between its requests is
    never refused, however many requests it makes: each one finds the
    counter expired and starts a new window. *)
Theorem spaced_client_never_refused (user_ip : string) (resp : JSON)
    (gap n : nat) (w : world) (r : redis) :
  60 <= Z.of_nat gap ->
  redis_client w = Some r ->
  stored w (REDIS_RATE_LIMIT_KEY user_ip) = None ->
  fst (burst n gap user_ip resp w) = repeat (Return resp) n.
Proof.
  intros Hgap Hr Hs.
  destruct (burst_spaced user_ip resp gap n Hgap w r Hr Hs)
    as (w' & r' & E & _).
  by rewrite E.
Qed.

(** 150 requests of the client "A", one a minute. *)
Lemma spaced_client_never_refused_witness :
  fst (burst 150 60 "A" OK sample_world) = repeat (Return OK) 150.
Proof.
  apply (spaced_client_never_refused "A" OK 60 150 sample_world
           (the_redis sample_world)).
  - simpl. lia.
  - reflexivity.
  - reflexivity.
Defined.

(** *** The handlers do not touch the counters *)

Section Counting.

Variable user_ip : string.
Variable n : Z.

Lemma keeps_counting_call {A} (e : effect)
    (cmd : Z -> redis -> result A * redis) :
  (forall (now : Z) (r : redis),
      Redis.lookup now (snd (cmd now r)) (REDIS_RATE_LIMIT_KEY user_ip) =
        Redis.lookup now r (REDIS_RATE_LIMIT_KEY user_ip)) ->
  keeps (counting user_ip n) (call e cmd).
Proof.
  intros Hcmd w [[r Hr] Hc]. unfold call. rewrite Hr.
  assert (counting user_ip n
            (set_redis_client (Some (snd (cmd (clock w) r))) (emit e w)))
    as Hb.
  { split; [by eexists|].
    unfold counted, stored, record_of in *. rewrite Hr in Hc. simpl.
    by rewrite Hcmd. }
  by destruct (cmd (clock w) r) as [[a|x] r'].
Qed.

Lemma keeps_counting_local {A} (m : M A) :
  (forall w, redis_client (snd (m w)) = redis_client w /\
             clock (snd (m w)) = clock w) ->
  keeps (counting user_ip n) m.
Proof.
  intros H w [[r Hr] Hc]. destruct (H w) as [Hr' Hcl].
  assert (counting user_ip n (snd (m w))) as Hb.
  { split; [exists r; by rewrite Hr'|].
    unfold counted, stored, record_of in *. by rewrite Hr', Hcl. }
  by destruct (m w) as [[a|x] w'].
Qed.

Lemma keeps_counting_setex (k : string) (seconds : Z) (v : string) :
  k <> REDIS_RATE_LIMIT_KEY user_ip ->
  keeps (counting user_ip n) (redis_setex k seconds v).
Proof.
  intros Hk. apply keeps_counting_call. intros now r. unfold Redis.setex.
  destruct (_ || _); [done|]. simpl. by apply lookup_insert_other.
Qed.

Lemma keeps_counting_get (k : string) :
  keeps (counting user_ip n) (redis_get k).
Proof. by apply keeps_counting_call. Qed.

Lemma keeps_counting_delete (k : string) :
  k <> REDIS_RATE_LIMIT_KEY user_ip ->
  keeps (counting user_ip n) (redis_delete k).
Proof.
  intros Hk. apply keeps_counting_call. intros now r.
  unfold Redis.lookup. simpl. by rewrite lookup_delete_ne.
Qed.

Lemma keeps_counting_handle (h : string -> string) (req : request) :
  keeps (counting user_ip n) (handle h req).
Proof.
  destruct req as [email | token new_password | token]; simpl.
  - unfold forgot_password, generate_verification_token.
    apply keeps_bind; [by apply keeps_counting_local|]. intros t.
    apply keeps_bind.
    + unfold store_email_verification_token.
      apply keeps_bind; [by apply keeps_counting_local|].
      intros [|]; [|apply keeps_ret].
      apply keeps_bind; [|intros; apply keeps_ret].
      apply keeps_counting_setex. intros E.
      by apply (rate_limit_verify_key user_ip t).
    + intros _. apply keeps_bind; [by apply keeps_counting_local|].
      intros _. apply keeps_ret.
  - unfold reset_password. apply keeps_bind.
    + unfold get_email_verification_token.
      apply keeps_bind; [by apply keeps_counting_local|].
      intros [|]; [apply keeps_counting_get | apply keeps_ret].
    + intros [[|a email]|]; cbn beta iota zeta;
        [by apply keeps_raise | | by apply keeps_raise].
      apply keeps_bind.
      { apply keeps_counting_local. intros w. unfold cursor_execute.
        by destruct (execute_ok (conn w)). }
      intros _. apply keeps_bind.
      { apply keeps_counting_local. intros w. unfold conn_commit.
        by destruct (commit_ok (conn w)). }
      intros _. apply keeps_bind; [|intros _; apply keeps_ret].
      apply keeps_counting_delete. intros E.
      by apply (rate_limit_verify_key user_ip token).
  - unfold revoke_token.
    apply keeps_bind; [|intros; apply keeps_ret].
    apply keeps_counting_setex. intros E.
    by apply (rate_limit_refresh_key user_ip token).
Qed.

End Counting.

Lemma serve_counting (h : string -> string) (user_ip : string)
    (reqs : list request) :
  forall (w : world) (n : Z),
    counting user_ip n w ->
    n + Z.of_nat (length reqs) <= 101 ->
    counting user_ip (n + Z.of_nat (length reqs))
      (snd (serve h user_ip reqs w)).
Proof.
  induction reqs as [|req rest IH]; intros w n Hc Hle.
  - simpl. by rewrite Z.add_0_r.
  - destruct Hc as [[r Hr] Hc].
    assert (0 <= n) as Hn by (destruct Hc as [[-> _]|[? _]]; lia).
    simpl length in *. cbn [serve].
    rewrite (rate_limit_admits user_ip w r n Hr Hc) by lia.
    assert (counting user_ip (n + 1)
              (snd (handle h req (admitted user_ip (n + 1) w r)))) as Hc1.
    { apply keeps_snd; [apply keeps_counting_handle|].
      split; [by eexists|]. apply admitted_counted. lia. }
    destruct (handle h req (admitted user_ip (n + 1) w r)) as [a w1].
    simpl in Hc1. specialize (IH w1 (n + 1) Hc1).
    destruct (serve h user_ip rest w1) as [l w2]. simpl in *.
    replace (n + Z.of_nat (S (length rest)))
      with (n + 1 + Z.of_nat (length rest)) by lia.
    apply IH. lia.
Qed.

(** X21. Whatever a client asks for, its 102nd request in a row is refused
    before any handler runs: after 101 requests of any kind sent without
    delay by a client that had no counter, whether they succeeded or failed,
    the limiter answers that client's next request with the 429 error, and
    the handler of that request does nothing.  A client can thus try at most
    101 reset tokens in a row. *)
Theorem client_refused_after_101_requests
    (pwd_context_hash : string -> string) (user_ip : string)
    (reqs : list request) (req : request) (w : world) (r : redis) :
  redis_client w = Some r ->
  stored w (REDIS_RATE_LIMIT_KEY user_ip) = None ->
  length reqs = 101%nat ->
  rate_limit_middleware user_ip (handle pwd_context_hash req)
    (snd (serve pwd_context_hash user_ip reqs w)) =
    (Raise (HTTPException 429 "Too many requests. Try again later."),
     emit (GET (REDIS_RATE_LIMIT_KEY user_ip))
       (snd (serve pwd_context_hash user_ip reqs w))).
Proof.
  intros Hr Hs Hlen.
  destruct (serve_counting pwd_context_hash user_ip reqs w 0)
    as [[r' Hr'] Hc'].
  - split; [by exists r | by apply counted_zero].
  - rewrite Hlen. lia.
  - rewrite Hlen in Hc'.
    apply (rate_limit_rejects user_ip _ r' _ Hr' Hc'). lia.
Qed.

(** After 101 guesses of a reset token by the client "A", the genuine token
    "Zm9v" is refused to "A" as well, and stays unconsumed. *)
Lemma client_refused_after_101_requests_witness :
  fst (rate_limit_middleware "A"
         (handle (fun p => p) (ResetPassword "Zm9v" "s3cret"))
         (snd (serve (fun p => p) "A"
                 (repeat (ResetPassword "guess" "s3cret") 101)
                 verify_world))) =
    Raise (HTTPException 429 "Too many requests. Try again later.").
Proof.
  rewrite (client_refused_after_101_requests (fun p => p) "A"
             (repeat (ResetPassword "guess" "s3cret") 101)
             (ResetPassword "Zm9v" "s3cret") verify_world
             (the_redis verify_world));
    [reflexivity | reflexivity | vm_compute; reflexivity | reflexivity].
Defined.
